(** * Runbook AI CORS proxy: the request pipeline of [proxy/server.js]

    A shallow embedding of the HTTP handler of [proxy/server.js] and the
    properties of its pipeline: preflight, origin check, target
    resolution, header sanitisation, upstream dispatch and relay.

    Header objects are finite maps from names to values; the handler is
    written in a small state-and-exception monad over the observable
    world (the server response under construction, the upstream calls
    made, the error log).  The platform services the handler calls but
    does not define (the WHATWG [URL] parser and [fetch]) are Section
    variables. *)

From Stdlib Require Import Strings.String Strings.Ascii Strings.Byte ZArith List.
From stdpp Require Import base option gmap strings list fin_maps pretty.

Local Open Scope string_scope.
Local Open Scope Z_scope.

(* ================================================================== *)
(** * JavaScript strings and objects *)
(* ================================================================== *)

Module Js.

(** [String.prototype.toLowerCase] on the ASCII range, which is where
    HTTP header names (tokens) live. *)
Definition lower_ascii (c : ascii) : ascii :=
  let n := N_of_ascii c in
  if ((65 <=? n) && (n <=? 90))%N then ascii_of_N (n + 32) else c.

Fixpoint toLowerCase (s : string) : string :=
  match s with
  | EmptyString => EmptyString
  | String c r => String (lower_ascii c) (toLowerCase r)
  end.

(** [s.startsWith(p)] *)
Definition startsWith (s p : string) : bool := String.prefix p s.

(** Truthiness of a string: only the empty string is falsy. *)
Definition truthy (s : string) : bool :=
  match s with EmptyString => false | String _ _ => true end.

(** [x || d] where [x] is a string or [undefined]/[null]. *)
Definition or_else (x : option string) (d : string) : string :=
  match x with
  | Some s => if truthy s then s else d
  | None => d
  end.

(** [!x] where [x] is a string or [null]. *)
Definition falsy (x : option string) : bool :=
  match x with
  | Some s => negb (truthy s)
  | None => true
  end.

(** A plain object used as a string-keyed map. *)
Abbreviation obj := (gmap string string).

(** [o[k] = v] on an object created by a literal, with a string [v]:
    every key defines an own property except [__proto__], whose setter
    ignores values that are neither objects nor [null]. *)
Definition assign (k v : string) (o : obj) : obj :=
  if decide (k = "__proto__") then o else <[k := v]> o.

(** [{...a, ...b}]: the properties of [b] win. *)
Definition spread (a b : obj) : obj := b ∪ a.

End Js.

(* ================================================================== *)
(** * Configuration and helpers *)
(* ================================================================== *)

Definition ALLOWED_ORIGINS : gset string :=
  {[ "http://localhost:9003"; "https://runbookai.net"; "https://www.runbookai.net" ]}.

Definition HOP_BY_HOP : gset string :=
  {[ "connection"; "keep-alive"; "proxy-authenticate"; "proxy-authorization";
     "te"; "trailers"; "transfer-encoding"; "upgrade";
     "host"; "origin"; "referer"; "cookie" ]}.

Definition BROWSER_ONLY : gset string :=
  {[ "user-agent"; "accept"; "accept-language"; "accept-encoding";
     "cache-control"; "pragma" ]}.

Definition PROXY_USER_AGENT : string := "runbook-ai-proxy/1.0".

Definition corsHeaders (origin : string) (requestedHeaders : option string) : Js.obj :=
  {[ "Access-Control-Allow-Origin" := origin;
     "Access-Control-Allow-Methods" := "GET, POST, PUT, PATCH, DELETE, OPTIONS";
     "Access-Control-Allow-Headers" :=
       Js.or_else requestedHeaders "Authorization, Content-Type";
     "Access-Control-Max-Age" := "86400" ]}.

(** The condition of the sanitising loop, on the lower-cased name. *)
Definition stripped (lower : string) : bool :=
  bool_decide (lower ∈ HOP_BY_HOP)
  || bool_decide (lower ∈ BROWSER_ONLY)
  || Js.startsWith lower "sec-".

(** One iteration of [for (const [key, value] of Object.entries(req.headers))]. *)
Definition forward_step (acc : Js.obj) (kv : string * string) : Js.obj :=
  let lower := Js.toLowerCase kv.1 in
  if negb (stripped lower) then Js.assign kv.1 kv.2 acc else acc.

(** The header sanitiser: the loop, then the forced [user-agent]. *)
Definition forwardHeaders (headers : Js.obj) : Js.obj :=
  Js.assign "user-agent" PROXY_USER_AGENT
    (foldl forward_step ∅ (map_to_list headers)).

(* ================================================================== *)
(** * JSON.stringify on flat objects of strings *)
(* ================================================================== *)

Module JSON.

Definition dquote : ascii := "034"%char.
Definition backslash : ascii := "092"%char.

Definition hex_digit (n : N) : ascii :=
  if (n <? 10)%N then ascii_of_N (48 + n) else ascii_of_N (87 + n).

(** The escape of one character inside a JSON string literal. *)
Definition escape (c : ascii) : string :=
  let n := N_of_ascii c in
  if (n =? 34)%N then String backslash (String dquote EmptyString)
  else if (n =? 92)%N then String backslash (String backslash EmptyString)
  else if (n =? 8)%N then String backslash "b"
  else if (n =? 9)%N then String backslash "t"
  else if (n =? 10)%N then String backslash "n"
  else if (n =? 12)%N then String backslash "f"
  else if (n =? 13)%N then String backslash "r"
  else if (n <? 32)%N then
    String backslash ("u00" +:+ String (hex_digit (n / 16)) (String (hex_digit (n mod 16)) EmptyString))
  else String c EmptyString.

Fixpoint escape_all (s : string) : string :=
  match s with
  | EmptyString => EmptyString
  | String c r => escape c +:+ escape_all r
  end.

Definition quote (s : string) : string :=
  String dquote (escape_all s +:+ String dquote EmptyString).

Definition member (kv : string * string) : string :=
  quote kv.1 +:+ ":" +:+ quote kv.2.

Fixpoint members (l : list (string * string)) : string :=
  match l with
  | [] => EmptyString
  | [kv] => member kv
  | kv :: r => member kv +:+ "," +:+ members r
  end.

(** [JSON.stringify({k1: v1, ...})] for string values. *)
Definition stringify (l : list (string * string)) : string :=
  "{" +:+ members l +:+ "}".

End JSON.

(* ================================================================== *)
(** * Platform values: URL, fetch, the server response *)
(* ================================================================== *)

(** A thrown value; only its [message] is read. *)
Record Error := { message : string }.

(** A parsed [URL]: the parts the handler reads. *)
Record URL := {
  protocol : string;
  href : string;                          (* what [toString()] returns *)
  searchParams : list (string * string);  (* decoded query pairs, in order *)
}.

(** [u.searchParams.get(name)]: the first value of that name, or [null]. *)
Definition searchParams_get (u : URL) (name : string) : option string :=
  snd <$> List.find (λ kv, bool_decide (kv.1 = name)) (searchParams u).

Record IncomingMessage := {
  method : string;
  url : string;
  headers : Js.obj;
  chunks : list (list byte);   (* the body as the stream delivers it *)
}.

Record RequestInit := {
  init_method : string;
  init_headers : Js.obj;
  init_body : option (list byte);   (* [None] is [undefined] *)
}.

(** What [fetch] resolves to.  [response_headers] holds lower-cased
    names, as a [Headers] object does. *)
Record Response := {
  status : Z;
  response_headers : Js.obj;
  arrayBuffer : Error + list byte;
}.

Definition Headers_get (h : Js.obj) (name : string) : option string :=
  h !! Js.toLowerCase name.

(** The services of the runtime the handler relies on. *)
Record Platform := {
  PORT : N;
  (** [new URL(input, base)]; [inl] when it throws. *)
  URL_new : string → option string → Error + URL;
  (** [fetch(url, init)]; [inl] when the promise rejects. *)
  fetch_impl : string → RequestInit → Error + Response;
}.

Inductive Payload :=
  | Text (s : string)
  | Buffer (b : list byte).

Record ServerResponse := {
  res_head : option (Z * Js.obj);   (* [writeHead(status, headers)] *)
  res_body : option Payload;        (* the argument of [end], if any *)
  res_finished : bool;
}.

Record FetchCall := { call_url : string; call_init : RequestInit }.

(** Everything the handler can change. *)
Record World := {
  res : ServerResponse;
  upstream_calls : list FetchCall;
  console : list (list string);
}.

Definition fresh : World :=
  {| res := {| res_head := None; res_body := None; res_finished := false |};
     upstream_calls := []; console := [] |}.

(* ================================================================== *)
(** * The handler monad: state over [World], with exceptions *)
(* ================================================================== *)

Inductive Completion (A : Type) :=
  | Normal (a : A)
  | Throw (e : Error).
Arguments Normal {A} a.
Arguments Throw {A} e.

Definition M (A : Type) : Type := World → Completion A * World.

#[global] Instance M_ret : MRet M := λ A a w, (Normal a, w).
#[global] Instance M_bind : MBind M := λ A B f m w,
  match m w with
  | (Normal a, w') => f a w'
  | (Throw e, w') => (Throw e, w')
  end.

Definition throw {A} (e : Error) : M A := λ w, (Throw e, w).

(** [try { m } catch (err) { h err }] *)
Definition try_catch {A} (m : M A) (h : Error → M A) : M A := λ w,
  match m w with
  | (Normal a, w') => (Normal a, w')
  | (Throw e, w') => h e w'
  end.

Definition lift {A} (r : Error + A) : M A := λ w,
  match r with
  | inl e => (Throw e, w)
  | inr a => (Normal a, w)
  end.

Definition writeHead (st : Z) (hs : Js.obj) : M unit := λ w,
  (Normal tt,
   {| res := {| res_head := Some (st, hs);
                res_body := res_body (res w);
                res_finished := res_finished (res w) |};
      upstream_calls := upstream_calls w; console := console w |}).

(** [res.end(data)] *)
Definition end_ (data : option Payload) : M unit := λ w,
  (Normal tt,
   {| res := {| res_head := res_head (res w);
                res_body := data;
                res_finished := true |};
      upstream_calls := upstream_calls w; console := console w |}).

Definition console_error (args : list string) : M unit := λ w,
  (Normal tt,
   {| res := res w; upstream_calls := upstream_calls w;
      console := console w ++ [args] |}).

(** [readBody]: the chunks of the request stream, concatenated, for a
    stream that is read to its end. *)
Definition readBody (req : IncomingMessage) : M (list byte) :=
  mret (concat (chunks req)).

Section Server.

Variable P : Platform.

Definition fetch (u : string) (init : RequestInit) : M Response := λ w,
  (match fetch_impl P u init with
   | inl e => Throw e
   | inr r => Normal r
   end,
   {| res := res w;
      upstream_calls := upstream_calls w ++ [{| call_url := u; call_init := init |}];
      console := console w |}).

Definition base : string := "http://localhost:" +:+ pretty (PORT P).

Definition json : string := "application/json".

(** The [try] block around [new URL(targetUrl)]: the parsed target, or
    [None] after the 400 response has been written. *)
Definition validate (origin targetUrl : string) : M (option URL) :=
  try_catch
    (parsedTarget ← lift (URL_new P targetUrl None);
     if negb (bool_decide (protocol parsedTarget = "http:"))
        && negb (bool_decide (protocol parsedTarget = "https:"))
     then throw {| message := "invalid protocol" |}
     else mret (Some parsedTarget))
    (λ _,
       writeHead 400 (Js.spread {[ "Content-Type" := json ]} (corsHeaders origin None));;
       end_ (Some (Text (JSON.stringify [("error", "Invalid target URL")])));;
       mret None).

(** The [try] block around [fetch]: dispatch and relay. *)
Definition forward (req : IncomingMessage) (origin : string)
    (parsedTarget : URL) (body : list byte) (forwarded : Js.obj) : M unit :=
  try_catch
    (upstream ← fetch (href parsedTarget)
       {| init_method := method req;
          init_headers := forwarded;
          init_body := if (0 <? length body)%nat then Some body else None |};
     respBody ← lift (arrayBuffer upstream);
     let contentType :=
       Js.or_else (Headers_get (response_headers upstream) "content-type") json in
     writeHead (status upstream)
       (Js.spread {[ "Content-Type" := contentType ]} (corsHeaders origin None));;
     end_ (Some (Buffer respBody)))
    (λ err,
       console_error ["[proxy] upstream error:"; message err];;
       writeHead 502 (Js.spread {[ "Content-Type" := json ]} (corsHeaders origin None));;
       end_ (Some (Text (JSON.stringify
               [("error", "Upstream error"); ("message", message err)])))).

(** The request listener passed to [http.createServer]. *)
Definition handler (req : IncomingMessage) : M unit :=
  let origin := Js.or_else (headers req !! "origin") "" in
  if bool_decide (method req = "OPTIONS") then
    (if bool_decide (origin ∈ ALLOWED_ORIGINS) then
       let requestedHeaders := headers req !! "access-control-request-headers" in
       writeHead 204 (corsHeaders origin requestedHeaders)
     else writeHead 403 ∅);;
    end_ None
  else if negb (bool_decide (origin ∈ ALLOWED_ORIGINS)) then
    writeHead 403 {[ "Content-Type" := json ]};;
    end_ (Some (Text (JSON.stringify [("error", "Origin not allowed")])))
  else
    reqUrl ← lift (URL_new P (Js.or_else (Some (url req)) "/") (Some base));
    let targetUrl := searchParams_get reqUrl "url" in
    if Js.falsy targetUrl then
      writeHead 400 (Js.spread {[ "Content-Type" := json ]} (corsHeaders origin None));;
      end_ (Some (Text (JSON.stringify [("error", "Missing ?url= parameter")])))
    else
      valid ← validate origin (default "" targetUrl);
      match valid with
      | None => mret tt
      | Some parsedTarget =>
          body ← readBody req;
          forward req origin parsedTarget body (forwardHeaders (headers req))
      end.

(** One request served from a fresh response object. *)
Definition serve (req : IncomingMessage) : Completion unit * World :=
  handler req fresh.

End Server.

(** The header names [corsHeaders] sets. *)
Definition CORS_NAMES : gset string :=
  {[ "Access-Control-Allow-Origin"; "Access-Control-Allow-Methods";
     "Access-Control-Allow-Headers"; "Access-Control-Max-Age" ]}.

(** The [origin] constant of the handler. *)
Definition origin_of (req : IncomingMessage) : string :=
  Js.or_else (headers req !! "origin") "".

(** The names the sanitising loop copies: not stripped, and assignable. *)
Definition kept (k : string) : bool :=
  negb (stripped (Js.toLowerCase k)) && negb (bool_decide (k = "__proto__")).

(** The response of a finished exchange, as the caller sees it. *)
Definition response_of (w : World) : option (Z * Js.obj * option Payload) :=
  match res_head (res w) with
  | Some (st, hs) => if res_finished (res w) then Some (st, hs, res_body (res w)) else None
  | None => None
  end.

(** A finished response: head written, [end] called. *)
Definition replied (st : Z) (hs : Js.obj) (data : option Payload) : ServerResponse :=
  {| res_head := Some (st, hs); res_body := data; res_finished := true |}.

(** The header object of every response to an authorised caller:
    [{ 'Content-Type': ct, ...corsHeaders(origin) }]. *)
Definition reply_headers (ct origin : string) : Js.obj :=
  Js.spread {[ "Content-Type" := ct ]} (corsHeaders origin None).

(** The error bodies, character by character. *)
Definition dq : string := String "034"%char EmptyString.

Definition error_body (text : string) : string :=
  "{" +:+ dq +:+ "error" +:+ dq +:+ ":" +:+ dq +:+ text +:+ dq +:+ "}".

(** The value [fetch] is called with for a request and a parsed target. *)
Definition upstream_call (req : IncomingMessage) (target : URL) : FetchCall :=
  {| call_url := href target;
     call_init :=
       {| init_method := method req;
          init_headers := forwardHeaders (headers req);
          init_body :=
            let body := concat (chunks req) in
            if (0 <? length body)%nat then Some body else None |} |}.

(** The upstream exchange of a dispatched request: [fetch] and then
    [arrayBuffer()], either of which may fail. *)
Definition upstream_result (P : Platform) (req : IncomingMessage) (target : URL)
    : Error + Response * list byte :=
  match fetch_impl P (href target) (call_init (upstream_call req target)) with
  | inl e => inl e
  | inr r =>
      match arrayBuffer r with
      | inl e => inl e
      | inr b => inr (r, b)
      end
  end.

(** The JSON text of the 502 body. *)
Definition upstream_error_body (e : Error) : string :=
  JSON.stringify [("error", "Upstream error"); ("message", message e)].

(** The target resolver's view of a request: the value of
    [reqUrl.searchParams.get('url')], when the request URL parses. *)
Definition url_param (P : Platform) (req : IncomingMessage) : Error + option string :=
  match URL_new P (Js.or_else (Some (url req)) "/") (Some (base P)) with
  | inl e => inl e
  | inr u => inr (searchParams_get u "url")
  end.

(** [targetUrl] names an absolute http(s) URL that parses to [u]. *)
Definition valid_target (P : Platform) (targetUrl : string) (u : URL) : Prop :=
  URL_new P targetUrl None = inr u ∧ (protocol u = "http:" ∨ protocol u = "https:").

(** [targetUrl] does not parse, or parses with another scheme. *)
Definition invalid_target (P : Platform) (targetUrl : string) : Prop :=
  match URL_new P targetUrl None with
  | inl _ => True
  | inr u => protocol u ≠ "http:" ∧ protocol u ≠ "https:"
  end.

(** The request reaches the dispatcher with the parsed target [u]: it
    is not a preflight, its origin is allowed, and its [url] parameter
    is a non-empty, valid http(s) URL. *)
Definition dispatched (P : Platform) (req : IncomingMessage) (u : URL) : Prop :=
  method req ≠ "OPTIONS" ∧
  origin_of req ∈ ALLOWED_ORIGINS ∧
  ∃ s, url_param P req = inr (Some s) ∧ s ≠ "" ∧ valid_target P s u.

(* ================================================================== *)
(** * A concrete platform for examples *)
(* ================================================================== *)

Module Sample.

Definition lookup_table {A} (t : list (string * A)) (k : string) : option A :=
  snd <$> List.find (λ kv, bool_decide (kv.1 = k)) t.

Definition invalid_url : Error := {| message := "Invalid URL" |}.

Definition discord_me : string := "https://discord.com/api/v10/users/@me".

(** Request targets and the query pairs the URL parser finds in them. *)
Definition request_targets : list (string * list (string * string)) :=
  [ ("/proxy", []);
    ("/proxy?url=", [("url", "")]);
    ("/proxy?url=not-a-url", [("url", "not-a-url")]);
    ("/proxy?url=ftp://host/path", [("url", "ftp://host/path")]);
    ("/proxy?url=https%3A%2F%2Fdiscord.com%2Fapi%2Fv10%2Fusers%2F%40me", [("url", discord_me)]);
    ("/proxy?url=http%3A%2F%2Fdown.invalid%2F", [("url", "http://down.invalid/")]);
    ("/proxy?url=https%3A%2F%2Fplain.example%2F", [("url", "https://plain.example/")]) ].

(** Absolute URLs the parser accepts, with their scheme. *)
Definition absolute_urls : list (string * string) :=
  [ (discord_me, "https:");
    ("http://down.invalid/", "http:");
    ("https://plain.example/", "https:");
    ("ftp://host/path", "ftp:") ].

Definition sample_URL_new (input : string) (b : option string) : Error + URL :=
  match b with
  | Some b =>
      match lookup_table request_targets input with
      | Some q => inr {| protocol := "http:"; href := b +:+ input; searchParams := q |}
      | None => inl invalid_url
      end
  | None =>
      match lookup_table absolute_urls input with
      | Some p => inr {| protocol := p; href := input; searchParams := [] |}
      | None => inl invalid_url
      end
  end.

(** The bytes of the text [{}]. *)
Definition empty_object : list byte := [x7b; x7d].

(** The upstream world: one healthy endpoint, one that answers with an
    empty content type, and nothing else reachable. *)
Definition sample_fetch (u : string) (init : RequestInit) : Error + Response :=
  if bool_decide (u = discord_me) then
    inr {| status := 200;
           response_headers := {[ "content-type" := "application/json; charset=utf-8";
                                  "set-cookie" := "sid=1" ]};
           arrayBuffer := inr empty_object |}
  else if bool_decide (u = "https://plain.example/") then
    inr {| status := 200;
           response_headers := {[ "content-type" := "" ]};
           arrayBuffer := inr empty_object |}
  else inl {| message := "fetch failed" |}.

Definition platform : Platform :=
  {| PORT := 8082; URL_new := sample_URL_new; fetch_impl := sample_fetch |}.

Definition local_origin : string := "http://localhost:9003".

Definition get (target : string) (hs : Js.obj) : IncomingMessage :=
  {| method := "GET"; url := target; headers := hs; chunks := [] |}.

Definition target_discord : string :=
  "/proxy?url=https%3A%2F%2Fdiscord.com%2Fapi%2Fv10%2Fusers%2F%40me".

(** A browser request for the healthy endpoint. *)
Definition browser_headers : Js.obj :=
  {[ "origin" := local_origin;
     "host" := "localhost:8082";
     "cookie" := "session=1";
     "user-agent" := "Mozilla/5.0";
     "accept" := "*/*";
     "sec-fetch-mode" := "cors";
     "authorization" := "Bot token" ]}.

Definition get_me : IncomingMessage := get target_discord browser_headers.

(** A [POST] with a two-chunk body. *)
Definition post_me : IncomingMessage :=
  {| method := "POST"; url := target_discord; headers := browser_headers;
     chunks := [[x7b]; [x7d]] |}.

(** A preflight whose [Access-Control-Request-Headers] has an empty value. *)
Definition preflight_empty : IncomingMessage :=
  {| method := "OPTIONS"; url := "/proxy";
     headers := {[ "origin" := local_origin; "access-control-request-headers" := "" ]};
     chunks := [] |}.

Definition preflight : IncomingMessage :=
  {| method := "OPTIONS"; url := "/proxy";
     headers := {[ "origin" := local_origin;
                   "access-control-request-headers" := "authorization" ]};
     chunks := [] |}.

Definition stranger : IncomingMessage :=
  get target_discord {[ "origin" := "https://evil.example" ]}.






(** A request for a host that cannot be reached. *)
Definition get_down : IncomingMessage :=
  get "/proxy?url=http%3A%2F%2Fdown.invalid%2F" {[ "origin" := local_origin ]}.


Definition discord_url : URL :=
  {| protocol := "https:"; href := discord_me; searchParams := [] |}.

(** The browser request again, with other values in stripped headers. *)
Definition get_me_again : IncomingMessage :=
  get target_discord
    {[ "origin" := "https://runbookai.net";
       "host" := "proxy.runbookai.net";
       "cookie" := "session=2; theme=dark";
       "user-agent" := "curl/8.0";
       "accept" := "application/json";
       "sec-fetch-mode" := "no-cors";
       "authorization" := "Bot token" ]}.

(** An authorised request whose own target the URL parser rejects. *)
Definition get_slashes : IncomingMessage :=
  get "//" {[ "origin" := local_origin ]}.

(** A request that carries [accept-charset]. *)
Definition get_charset : IncomingMessage :=
  get target_discord
    {[ "origin" := local_origin; "accept" := "*/*"; "accept-charset" := "utf-8" ]}.

End Sample.

(* ================================================================== *)
(** * The sanitiser as a filter *)
(* ================================================================== *)

(** What the sanitising loop amounts to: keep the entries whose name is
    copied, then set [user-agent]. *)
Definition sanitised (h : Js.obj) : Js.obj :=
  <[ "user-agent" := PROXY_USER_AGENT ]>
    (filter (λ kv : string * string, kept kv.1 = true) h).

Module Cases.

(** The sample [POST] again: same method, target, origin and body, with
    the body in one chunk and other values in stripped headers. *)
Definition post_me_again : IncomingMessage :=
  {| method := "POST"; url := Sample.target_discord;
     headers :=
       {[ "origin" := Sample.local_origin;
          "host" := "127.0.0.1:8082";
          "cookie" := "session=2; theme=dark";
          "user-agent" := "curl/8.0";
          "accept" := "application/json";
          "sec-fetch-mode" := "no-cors";
          "referer" := "http://localhost:9003/agent";
          "authorization" := "Bot token" ]};
     chunks := [[x7b; x7d]] |}.

End Cases.

(* ================================================================== *)
(** * The agent page: the settings form *)
(* ================================================================== *)

Module Agent.

Definition newline : ascii := "010"%char.

(** The WhiteSpace and LineTerminator code points below 128, which are
    what [String.prototype.trim] removes from ASCII text. *)
Definition is_space (c : ascii) : bool :=
  let n := N_of_ascii c in
  ((n =? 9) || (n =? 10) || (n =? 11) || (n =? 12) || (n =? 13) || (n =? 32))%N.

Fixpoint trimStart (s : string) : string :=
  match s with
  | EmptyString => EmptyString
  | String c r => if is_space c then trimStart r else s
  end.

Fixpoint trimEnd (s : string) : string :=
  match s with
  | EmptyString => EmptyString
  | String c r =>
      match trimEnd r with
      | EmptyString => if is_space c then EmptyString else String c EmptyString
      | String d t => String c (String d t)
      end
  end.

(** [s.trim()] *)
Definition trim (s : string) : string := trimEnd (trimStart s).

(** [s.split('\n')]: never empty; the empty string gives one empty piece. *)
Fixpoint split_lines (s : string) : list string :=
  match s with
  | EmptyString => [EmptyString]
  | String c r =>
      if Ascii.eqb c newline then EmptyString :: split_lines r
      else
        match split_lines r with
        | [] => [String c EmptyString]
        | piece :: rest => String c piece :: rest
        end
  end.

(** [l.join('\n')] *)
Fixpoint join_lines (l : list string) : string :=
  match l with
  | [] => EmptyString
  | [x] => x
  | x :: r => x +:+ String newline (join_lines r)
  end.

(** [c] occurs in [s]. *)
Fixpoint occurs (c : ascii) (s : string) : bool :=
  match s with
  | EmptyString => false
  | String d r => Ascii.eqb d c || occurs c r
  end.

(** Text as a textarea holds it and this model reads it exactly: ASCII
    only, with LF the only line break (the value of a textarea has no
    carriage return). *)
Fixpoint plain (s : string) : bool :=
  match s with
  | EmptyString => true
  | String c r => (N_of_ascii c <? 128)%N && negb (N_of_ascii c =? 13)%N && plain r
  end.

(** A string that is empty or starts with a character [trim] keeps. *)
Definition starts_clean (s : string) : Prop :=
  match s with
  | EmptyString => True
  | String c _ => is_space c = false
  end.

(** The [users] constant of the save handler:
    [value.split('\n').map(u => u.trim().toLowerCase()).filter(Boolean)]. *)
Definition users (value : string) : list string :=
  List.filter Js.truthy (map (λ u, Js.toLowerCase (trim u)) (split_lines value)).

(** The settings object, as the page writes and reads it. *)
Record Settings := {
  botToken : option string;
  allowedUsers : option (list string);
}.

(** The two fields of the form. *)
Record Form := {
  botToken_field : string;
  allowedUsers_field : string;
}.

(** [initForm]: [s.botToken ?? ''] and [(s.allowedUsers ?? []).join('\n')]. *)
Definition initForm (s : Settings) : Form :=
  {| botToken_field := default EmptyString (botToken s);
     allowedUsers_field := join_lines (default [] (allowedUsers s)) |}.

(** The object the save handler passes to [saveSettings]. *)
Definition saved (f : Form) : Settings :=
  {| botToken := Some (trim (botToken_field f));
     allowedUsers := Some (users (allowedUsers_field f)) |}.

(** A form as typed: padded token, mixed case, a blank line. *)
Definition sample_form : Form :=
  {| botToken_field := " token ";
     allowedUsers_field :=
       "Alice" +:+ String newline (String newline " BOB ") |}.

(** A user name in the form [users] leaves it. *)
Definition normal (u : string) : Prop :=
  u ≠ EmptyString ∧ trim u = u ∧ Js.toLowerCase u = u ∧ occurs newline u = false.

(** The class lists of the settings header and body. *)
Record Panel := {
  header_classes : gset string;
  body_classes : gset string;
}.

(** [classList.toggle(name, force)] *)
Definition classList_toggle (name : string) (force : bool) (cl : gset string)
    : gset string :=
  if force then cl ∪ {[ name ]} else cl ∖ {[ name ]}.

(** The click handler of [settingsToggle]. *)
Definition settingsToggle (p : Panel) : Panel :=
  let open := bool_decide ("open" ∈ header_classes p) in
  {| header_classes := classList_toggle "open" (negb open) (header_classes p);
     body_classes := classList_toggle "hidden" open (body_classes p) |}.

End Agent.

(* ================================================================== *)
(** * The agent page: persisted settings and the proxy URL *)
(* ================================================================== *)

Module Settings.

Definition STORAGE_KEY : string := "runbookai_discord_agent_v1".

(** [x.replace(/\/$/, '')]: the pattern can only match a slash that is
    the last character, and at most one match is replaced. *)
Fixpoint replace_trailing_slash (s : string) : string :=
  match s with
  | EmptyString => EmptyString
  | String c EmptyString => if Ascii.eqb c "/" then EmptyString else s
  | String c r => String c (replace_trailing_slash r)
  end.

Section Runtime.

(** The numbers of the runtime; the code only asks whether one is truthy. *)
Variable Num : Type.

(** The values [JSON.parse] can return, and [undefined]. *)
#[warnings="-register-all"]
Inductive Value :=
  | Undefined
  | Null
  | Boolean (b : bool)
  | Number (x : Num)
  | Str (s : string)
  | Array (l : list Value)
  | Object (o : gmap string Value).

Record Runtime := {
  (** neither zero nor NaN *)
  num_truthy : Num → bool;
  (** the items of [localStorage]; [inl] when access to it throws *)
  storage : Error + gmap string string;
  (** [JSON.parse]; [inl] when it throws *)
  JSON_parse : string → Error + Value;
}.

Variable R : Runtime.

Definition to_boolean (v : Value) : bool :=
  match v with
  | Undefined | Null => false
  | Boolean b => b
  | Number x => num_truthy R x
  | Str s => Js.truthy s
  | Array _ | Object _ => true
  end.

(** [localStorage.getItem(k)], inside the [try]. *)
Definition getItem (k : string) : Error + option string :=
  match storage R with
  | inl e => inl e
  | inr items => inr (items !! k)
  end.

(** Never throws: the empty object stands in for anything that does. *)
Definition loadSettings : Value :=
  match getItem STORAGE_KEY with
  | inl _ => Object ∅
  | inr item =>
      match JSON_parse R (Js.or_else item "{}") with
      | inl _ => Object ∅
      | inr v => v
      end
  end.

(** [s.proxyUrl]: a TypeError on [null] and [undefined]; the own
    property of an object; [undefined] on every other value, none of
    which has a property of that name. *)
Definition proxyUrl_of (s : Value) : Error + Value :=
  match s with
  | Undefined | Null =>
      inl {| message := "Cannot read properties of null or undefined" |}
  | Object o => inr (default Undefined (o !! "proxyUrl"))
  | _ => inr Undefined
  end.

Definition getProxyUrl : Error + string :=
  let s := loadSettings in
  match proxyUrl_of s with
  | inl e => inl e
  | inr p =>
      match (if to_boolean p then p else Str "http://localhost:8082") with
      | Str x => inr (replace_trailing_slash x)
      | _ => inl {| message := "replace is not a function" |}
      end
  end.

End Runtime.

Arguments Undefined {Num}.
Arguments Null {Num}.
Arguments Boolean {Num} b.
Arguments Number {Num} x.
Arguments Str {Num} s.
Arguments Array {Num} l.
Arguments Object {Num} o.
Arguments num_truthy {Num} _ _.
Arguments storage {Num} _.
Arguments JSON_parse {Num} _ _.
Arguments to_boolean {Num} R v.
Arguments getItem {Num} R k.
Arguments loadSettings {Num} R.
Arguments proxyUrl_of {Num} s.
Arguments getProxyUrl {Num} R.

(** The JSON text of an object with one string field. *)
Definition one_field (k v : string) : string :=
  "{" +:+ JSON.quote k +:+ ":" +:+ JSON.quote v +:+ "}".

(** A parser that knows the texts used in the examples. *)
Definition sample_parse (t : string) : Error + Value N :=
  if bool_decide (t = "{}") then inr (Object ∅)
  else if bool_decide (t = one_field "proxyUrl" "https://proxy.runbookai.net/") then
    inr (Object {[ "proxyUrl" := Str "https://proxy.runbookai.net/" ]})
  else if bool_decide (t = "null") then inr Null
  else inl {| message := "Unexpected token" |}.

Definition runtime_with (items : gmap string string) : Runtime N :=
  {| num_truthy := λ x, negb (x =? 0)%N;
     storage := inr items;
     JSON_parse := sample_parse |}.

(** A first visit, a configured proxy, and a stored [null]. *)
Definition first_visit : Runtime N := runtime_with ∅.

Definition configured : Runtime N :=
  runtime_with {[ STORAGE_KEY := one_field "proxyUrl" "https://proxy.runbookai.net/" ]}.

Definition stored_null : Runtime N :=
  runtime_with {[ STORAGE_KEY := "null" ]}.

End Settings.

(* ================================================================== *)
(** * What fetch does with a call before sending it *)
(* ================================================================== *)

(** The check fetch makes when it builds the request, after folding the
    case of the method: a body on GET or HEAD is a TypeError, thrown
    before anything is sent. *)
Definition fetch_refuses (init : RequestInit) : bool :=
  let m := Js.toLowerCase (init_method init) in
  (bool_decide (m = "get") || bool_decide (m = "head"))
  && match init_body init with Some _ => true | None => false end.

(** A platform whose fetch makes that check. *)
Definition standard_fetch (P : Platform) : Prop :=
  ∀ u init, fetch_refuses init = true → ∃ e, fetch_impl P u init = inl e.

Module Strict.

Definition body_refused : Error :=
  {| message := "Request with GET/HEAD method cannot have body." |}.

(** The sample upstream behind a fetch that makes the check. *)
Definition strict_fetch (u : string) (init : RequestInit) : Error + Response :=
  if fetch_refuses init then inl body_refused else Sample.sample_fetch u init.

Definition platform : Platform :=
  {| PORT := 8082; URL_new := Sample.sample_URL_new; fetch_impl := strict_fetch |}.

(** An authorised [GET] for the healthy endpoint that carries a body. *)
Definition get_with_body : IncomingMessage :=
  {| method := "GET"; url := Sample.target_discord;
     headers := {[ "origin" := Sample.local_origin ]};
     chunks := [[x7b; x7d]] |}.

End Strict.

(* ================================================================== *)
(** * The listener when the body cannot be read *)
(* ================================================================== *)

Section Reading.

Variable P : Platform.

(** What [await readBody(req)] does: [readBody] when the stream is read
    to its end; a throw when the stream fails, as it does when the
    client aborts in the middle of the body. *)
Variable read : IncomingMessage → M (list byte).

(** The request listener, with the reading of the body as given. *)
Definition handler_reading (req : IncomingMessage) : M unit :=
  let origin := Js.or_else (headers req !! "origin") "" in
  if bool_decide (method req = "OPTIONS") then
    (if bool_decide (origin ∈ ALLOWED_ORIGINS) then
       let requestedHeaders := headers req !! "access-control-request-headers" in
       writeHead 204 (corsHeaders origin requestedHeaders)
     else writeHead 403 ∅);;
    end_ None
  else if negb (bool_decide (origin ∈ ALLOWED_ORIGINS)) then
    writeHead 403 {[ "Content-Type" := json ]};;
    end_ (Some (Text (JSON.stringify [("error", "Origin not allowed")])))
  else
    reqUrl ← lift (URL_new P (Js.or_else (Some (url req)) "/") (Some (base P)));
    let targetUrl := searchParams_get reqUrl "url" in
    if Js.falsy targetUrl then
      writeHead 400 (Js.spread {[ "Content-Type" := json ]} (corsHeaders origin None));;
      end_ (Some (Text (JSON.stringify [("error", "Missing ?url= parameter")])))
    else
      valid ← validate P origin (default "" targetUrl);
      match valid with
      | None => mret tt
      | Some parsedTarget =>
          body ← read req;
          forward P req origin parsedTarget body (forwardHeaders (headers req))
      end.

End Reading.

(** The reading of a stream that fails with [e]. *)
Definition aborted (e : Error) (req : IncomingMessage) : M (list byte) :=
  throw e.

(* ================================================================== *)
(** * Proof steps *)
(* ================================================================== *)

(** Step into the handler past the preflight test and the origin check,
    given how each of them goes. *)
Ltac past_preflight Hm :=
  unfold serve, handler, url_param in *;
  match goal with |- context [Js.or_else (headers ?r !! "origin") ""] =>
    fold (origin_of r) end;
  first [rewrite (bool_decide_eq_true_2 _ Hm) | rewrite (bool_decide_eq_false_2 _ Hm)].

Ltac past_origin_check Hm Ho :=
  past_preflight Hm;
  rewrite (bool_decide_eq_true_2 _ Ho);
  unfold mbind, M_bind, lift; simpl.

(** A sample request is dispatched: every condition is decided by
    evaluation, given the decoded target [s]. *)
Ltac dispatched_with s :=
  split; [discriminate|]; split; [compute_done|];
  exists s; split; [reflexivity|]; split; [discriminate|];
  split; [reflexivity|]; first [left; reflexivity | right; reflexivity].

(* ================================================================== *)
(** * The header sanitiser *)
(* ================================================================== *)

Section Sanitiser.

Implicit Types (h acc : Js.obj) (k j v : string).

Lemma assign_lookup k v acc j :
  Js.assign k v acc !! j =
    if decide (k = j) then (if decide (k = "__proto__") then acc !! j else Some v)
    else acc !! j.
Proof.
  unfold Js.assign.
  destruct (decide (k = "__proto__")), (decide (k = j)); subst; try done.
  - by rewrite lookup_insert_eq.
  - by rewrite lookup_insert_ne.
Qed.

Lemma forward_step_lookup acc k v j :
  forward_step acc (k, v) !! j =
    if decide (k = j) then (if kept k then Some v else acc !! j) else acc !! j.
Proof.
  unfold forward_step, kept; simpl.
  destruct (stripped (Js.toLowerCase k)); simpl.
  - by destruct (decide (k = j)).
  - rewrite assign_lookup.
    destruct (decide (k = j)); [|done].
    destruct (decide (k = "__proto__")).
    + by rewrite bool_decide_eq_true_2.
    + by rewrite bool_decide_eq_false_2.
Qed.

(** The loop over entries with pairwise distinct names. *)
Lemma foldl_forward_step_lookup (l : list (string * string)) acc j :
  NoDup l.*1 →
  foldl forward_step acc l !! j =
    match (if kept j then (list_to_map l : Js.obj) !! j else None) with
    | Some v => Some v
    | None => acc !! j
    end.
Proof.
  revert acc. induction l as [|[k v] l IH]; intros acc Hnd.
  - simpl. rewrite lookup_empty. by destruct (kept j).
  - rewrite fmap_cons in Hnd. apply NoDup_cons in Hnd as [Hk Hnd].
    rewrite list_to_map_cons. cbn [foldl]. rewrite (IH _ Hnd), forward_step_lookup.
    destruct (decide (k = j)) as [->|Hne].
    + rewrite lookup_insert_eq.
      rewrite (not_elem_of_list_to_map_1 (M:=gmap string) l j Hk).
      by destruct (kept j).
    + by rewrite lookup_insert_ne.
Qed.

Lemma loop_lookup h j :
  foldl forward_step ∅ (map_to_list h) !! j = if kept j then h !! j else None.
Proof.
  rewrite foldl_forward_step_lookup by apply NoDup_fst_map_to_list.
  rewrite list_to_map_to_list, lookup_empty.
  destruct (kept j); [|done]. by destruct (h !! j).
Qed.

(** The order in which [Object.entries] lists the headers does not
    matter: any enumeration of the object gives the same result. *)
Lemma loop_order_irrelevant (l : list (string * string)) h :
  NoDup l.*1 → list_to_map l = h →
  foldl forward_step ∅ l = foldl forward_step ∅ (map_to_list h).
Proof.
  intros Hnd <-. apply map_eq; intros j.
  rewrite loop_lookup, (foldl_forward_step_lookup _ _ _ Hnd), lookup_empty.
  destruct (kept j); [|done]. by destruct (list_to_map l !! j).
Qed.

(** The sanitised map, name by name. *)
Lemma forwardHeaders_lookup h j :
  forwardHeaders h !! j =
    if decide (j = "user-agent") then Some PROXY_USER_AGENT
    else if kept j then h !! j else None.
Proof.
  unfold forwardHeaders. rewrite assign_lookup, loop_lookup.
  destruct (decide ("user-agent" = j)) as [<-|Hne].
  - destruct (decide ("user-agent" = "__proto__")) as [?|_]; [done|].
    by rewrite decide_True.
  - by rewrite decide_False by done.
Qed.

Lemma stripped_false lower :
  stripped lower = false ↔
  (lower ∉ HOP_BY_HOP) ∧ (lower ∉ BROWSER_ONLY) ∧ Js.startsWith lower "sec-" = false.
Proof.
  unfold stripped. rewrite !orb_false_iff, !bool_decide_eq_false. tauto.
Qed.

Lemma forwardHeaders_ext h1 h2 :
  (∀ k, stripped (Js.toLowerCase k) = false → h1 !! k = h2 !! k) →
  forwardHeaders h1 = forwardHeaders h2.
Proof.
  intros Heq. apply map_eq; intros j. rewrite !forwardHeaders_lookup.
  destruct (decide (j = "user-agent")); [done|].
  destruct (kept j) eqn:Hk; [|done].
  apply Heq. unfold kept in Hk. apply andb_prop in Hk as [Hk _].
  by apply negb_true_iff in Hk.
Qed.

End Sanitiser.

(* ================================================================== *)
(** * The paths of the handler *)
(* ================================================================== *)

Section Pipeline.

Variable P : Platform.
Implicit Types (req : IncomingMessage).

Lemma serve_preflight req :
  method req = "OPTIONS" →
  serve P req =
    (Normal tt,
     {| res :=
          if bool_decide (origin_of req ∈ ALLOWED_ORIGINS)
          then replied 204
                 (corsHeaders (origin_of req)
                    (headers req !! "access-control-request-headers")) None
          else replied 403 ∅ None;
        upstream_calls := []; console := [] |}).
Proof.
  intros Hm. past_preflight Hm.
  by destruct (bool_decide (origin_of req ∈ ALLOWED_ORIGINS)).
Qed.

Lemma serve_forbidden req :
  method req ≠ "OPTIONS" →
  origin_of req ∉ ALLOWED_ORIGINS →
  serve P req =
    (Normal tt,
     {| res := replied 403 {[ "Content-Type" := json ]}
                 (Some (Text (JSON.stringify [("error", "Origin not allowed")])));
        upstream_calls := []; console := [] |}).
Proof.
  intros Hm Ho. past_preflight Hm.
  by rewrite (bool_decide_eq_false_2 _ Ho).
Qed.

Lemma serve_request_url_throws req e :
  method req ≠ "OPTIONS" →
  origin_of req ∈ ALLOWED_ORIGINS →
  url_param P req = inl e →
  serve P req = (Throw e, fresh).
Proof.
  intros Hm Ho Hu. past_origin_check Hm Ho.
  by destruct (URL_new P _ _); simplify_eq.
Qed.

Lemma serve_missing req t :
  method req ≠ "OPTIONS" →
  origin_of req ∈ ALLOWED_ORIGINS →
  url_param P req = inr t →
  Js.falsy t = true →
  serve P req =
    (Normal tt,
     {| res := replied 400 (reply_headers json (origin_of req))
                 (Some (Text (JSON.stringify [("error", "Missing ?url= parameter")])));
        upstream_calls := []; console := [] |}).
Proof.
  intros Hm Ho Hu Hf. past_origin_check Hm Ho.
  destruct (URL_new P _ _); simplify_eq. by rewrite Hf.
Qed.

Lemma serve_invalid req s :
  method req ≠ "OPTIONS" →
  origin_of req ∈ ALLOWED_ORIGINS →
  url_param P req = inr (Some s) →
  s ≠ "" →
  invalid_target P s →
  serve P req =
    (Normal tt,
     {| res := replied 400 (reply_headers json (origin_of req))
                 (Some (Text (JSON.stringify [("error", "Invalid target URL")])));
        upstream_calls := []; console := [] |}).
Proof.
  intros Hm Ho Hu Hs Hi. unfold invalid_target in Hi. past_origin_check Hm Ho.
  destruct (URL_new P _ (Some _)) as [|u]; simplify_eq. rewrite Hu.
  destruct s as [|c s]; [done|]. simpl.
  unfold validate, try_catch, mbind, M_bind, lift.
  destruct (URL_new P _ None) as [|v]; [done|].
  destruct Hi as [H1 H2].
  by rewrite (bool_decide_eq_false_2 _ H1), (bool_decide_eq_false_2 _ H2).
Qed.

Lemma serve_dispatched req s u :
  method req ≠ "OPTIONS" →
  origin_of req ∈ ALLOWED_ORIGINS →
  url_param P req = inr (Some s) →
  s ≠ "" →
  valid_target P s u →
  serve P req =
    (Normal tt,
     match upstream_result P req u with
     | inr (r, b) =>
         {| res := replied (status r)
                     (reply_headers
                        (Js.or_else (Headers_get (response_headers r) "content-type") json)
                        (origin_of req))
                     (Some (Buffer b));
            upstream_calls := [upstream_call req u]; console := [] |}
     | inl e =>
         {| res := replied 502 (reply_headers json (origin_of req))
                     (Some (Text (upstream_error_body e)));
            upstream_calls := [upstream_call req u];
            console := [["[proxy] upstream error:"; message e]] |}
     end).
Proof.
  intros Hm Ho Hu Hs [Hp Hv]. past_origin_check Hm Ho.
  destruct (URL_new P _ (Some _)) as [|q]; simplify_eq. rewrite Hu.
  destruct s as [|c s]; [done|]. simpl.
  unfold validate, try_catch, mbind, M_bind, lift. rewrite Hp.
  assert (negb (bool_decide (protocol u = "http:"))
          && negb (bool_decide (protocol u = "https:")) = false) as ->.
  { destruct Hv as [Hv|Hv]; rewrite (bool_decide_eq_true_2 _ Hv); simpl; [done|].
    apply andb_false_r. }
  unfold mret, M_ret, readBody, forward, try_catch, fetch, upstream_result; simpl.
  destruct (fetch_impl P _ _) as [e|r]; [done|].
  unfold mbind, M_bind, lift.
  by destruct (arrayBuffer r).
Qed.

(** Every target is either valid or invalid. *)
Lemma target_cases s : invalid_target P s ∨ ∃ u, valid_target P s u.
Proof.
  unfold invalid_target, valid_target.
  destruct (URL_new P s None) as [e|u]; [by left|].
  destruct (decide (protocol u = "http:")); [right; exists u; auto|].
  destruct (decide (protocol u = "https:")); [right; exists u; auto|].
  by left.
Qed.

(** The four ways an authorised, non-preflight request can go. *)
Lemma allowed_cases req :
  (∃ e, url_param P req = inl e) ∨
  (∃ t, url_param P req = inr t ∧ Js.falsy t = true) ∨
  (∃ s, url_param P req = inr (Some s) ∧ s ≠ "" ∧ invalid_target P s) ∨
  (∃ s u, url_param P req = inr (Some s) ∧ s ≠ "" ∧ valid_target P s u).
Proof.
  destruct (url_param P req) as [e|[s|]] eqn:Hu; [eauto| |right; left; eauto].
  destruct s as [|c s]; [right; left; eauto|].
  destruct (target_cases (String c s)) as [Hi|[u Hv]].
  - right; right; left. eauto.
  - right; right; right. exists (String c s), u. eauto.
Qed.

Lemma serve_dispatched' req u :
  dispatched P req u →
  serve P req =
    (Normal tt,
     match upstream_result P req u with
     | inr (r, b) =>
         {| res := replied (status r)
                     (reply_headers
                        (Js.or_else (Headers_get (response_headers r) "content-type") json)
                        (origin_of req))
                     (Some (Buffer b));
            upstream_calls := [upstream_call req u]; console := [] |}
     | inl e =>
         {| res := replied 502 (reply_headers json (origin_of req))
                     (Some (Text (upstream_error_body e)));
            upstream_calls := [upstream_call req u];
            console := [["[proxy] upstream error:"; message e]] |}
     end).
Proof. intros (Hm & Ho & s & Hu & Hs & Hv). by eapply serve_dispatched. Qed.

(** Whatever is sent upstream is sent by the dispatcher, once. *)
Lemma serve_calls req c :
  c ∈ upstream_calls (serve P req).2 →
  ∃ u, dispatched P req u ∧ c = upstream_call req u ∧
       upstream_calls (serve P req).2 = [c].
Proof.
  intros Hc.
  destruct (decide (method req = "OPTIONS")) as [Hm|Hm].
  { rewrite (serve_preflight _ Hm) in Hc. simpl in Hc. by apply elem_of_nil in Hc. }
  destruct (decide (origin_of req ∈ ALLOWED_ORIGINS)) as [Ho|Ho]; last first.
  { rewrite (serve_forbidden _ Hm Ho) in Hc. by apply elem_of_nil in Hc. }
  destruct (allowed_cases req) as [[e Hu]|[(t & Hu & Hf)|[(s & Hu & Hs & Hi)|(s & u & Hu & Hs & Hv)]]].
  - rewrite (serve_request_url_throws _ _ Hm Ho Hu) in Hc. by apply elem_of_nil in Hc.
  - rewrite (serve_missing _ _ Hm Ho Hu Hf) in Hc. by apply elem_of_nil in Hc.
  - rewrite (serve_invalid _ _ Hm Ho Hu Hs Hi) in Hc. by apply elem_of_nil in Hc.
  - exists u. split; [by repeat split; eauto|].
    rewrite (serve_dispatched _ _ _ Hm Ho Hu Hs Hv) in Hc |- *. simpl in *.
    destruct (upstream_result P req u) as [e|[r b]]; simpl in *;
      apply list_elem_of_singleton in Hc; by subst.
Qed.

End Pipeline.

(* ================================================================== *)
(** * Facts about the fixed header objects and bodies *)
(* ================================================================== *)

Lemma empty_origin_not_allowed : "" ∉ ALLOWED_ORIGINS.
Proof. compute_done. Qed.

Lemma wildcard_not_allowed : "*" ∉ ALLOWED_ORIGINS.
Proof. compute_done. Qed.

Lemma origin_of_header (req : IncomingMessage) :
  origin_of req ≠ "" → headers req !! "origin" = Some (origin_of req).
Proof.
  unfold origin_of, Js.or_else.
  destruct (headers req !! "origin") as [[|c o]|]; simpl; done.
Qed.

Lemma origin_of_allowed (req : IncomingMessage) :
  origin_of req ∈ ALLOWED_ORIGINS → headers req !! "origin" = Some (origin_of req).
Proof.
  intros Ho. apply origin_of_header. intros He. rewrite He in Ho.
  by apply empty_origin_not_allowed.
Qed.

Lemma origin_of_not_allowed (req : IncomingMessage) :
  (∀ o, headers req !! "origin" = Some o → o ∉ ALLOWED_ORIGINS) →
  origin_of req ∉ ALLOWED_ORIGINS.
Proof.
  intros H Ho. by apply (H _ (origin_of_allowed _ Ho)).
Qed.

Lemma reply_headers_dom ct o :
  dom (reply_headers ct o) = {[ "Content-Type" ]} ∪ CORS_NAMES.
Proof. vm_compute. reflexivity. Qed.



Lemma corsHeaders_dom o r : dom (corsHeaders o r) = CORS_NAMES.
Proof. vm_compute. reflexivity. Qed.

(** The three fixed error bodies as [JSON.stringify] prints them. *)
Lemma stringify_origin_not_allowed :
  JSON.stringify [("error", "Origin not allowed")] = error_body "Origin not allowed".
Proof. reflexivity. Qed.

Lemma stringify_missing :
  JSON.stringify [("error", "Missing ?url= parameter")]
  = error_body "Missing ?url= parameter".
Proof. reflexivity. Qed.

Lemma stringify_invalid :
  JSON.stringify [("error", "Invalid target URL")] = error_body "Invalid target URL".
Proof. reflexivity. Qed.


Lemma content_type_not_cors : "Content-Type" ∉ CORS_NAMES.
Proof. compute_done. Qed.

(* ================================================================== *)
(** * Origin authorisation and preflight *)
(* ================================================================== *)

(** C1. A request whose Origin header is not a member of the allowlist,
    or is absent, is answered with status 403 whatever its method and
    path, and nothing is sent upstream.  The response carries no CORS
    header; when the method is not OPTIONS its only header is the JSON
    content type and its body is the JSON text with the single field
    error set to Origin not allowed. *)
Theorem origin_not_allowed_forbidden (P : Platform) (req : IncomingMessage) :
  (∀ o, headers req !! "origin" = Some o → o ∉ ALLOWED_ORIGINS) →
  ∃ hs data,
    serve P req =
      (Normal tt,
       {| res := replied 403 hs data; upstream_calls := []; console := [] |}) ∧
    (∀ k, k ∈ CORS_NAMES → hs !! k = None) ∧
    (method req ≠ "OPTIONS" →
       hs = {[ "Content-Type" := "application/json" ]} ∧
       data = Some (Text (error_body "Origin not allowed"))).
Proof.
  intros Ho%origin_of_not_allowed.
  destruct (decide (method req = "OPTIONS")) as [Hm|Hm].
  - exists ∅, None. rewrite (serve_preflight P _ Hm), (bool_decide_eq_false_2 _ Ho).
    split; [done|]. split; [intros; apply lookup_empty|done].
  - exists {[ "Content-Type" := json ]}, (Some (Text (error_body "Origin not allowed"))).
    rewrite (serve_forbidden P _ Hm Ho). split; [done|]. split; [|done].
    intros k Hk. apply lookup_singleton_ne. intros <-.
    by apply content_type_not_cors.
Qed.

Lemma origin_not_allowed_forbidden_witness :
  (∀ o, headers Sample.stranger !! "origin" = Some o → o ∉ ALLOWED_ORIGINS) ∧
  ∃ hs data,
    serve Sample.platform Sample.stranger =
      (Normal tt,
       {| res := replied 403 hs data; upstream_calls := []; console := [] |}) ∧
    (∀ k, k ∈ CORS_NAMES → hs !! k = None) ∧
    (method Sample.stranger ≠ "OPTIONS" →
       hs = {[ "Content-Type" := "application/json" ]} ∧
       data = Some (Text (error_body "Origin not allowed"))).
Proof.
  assert (∀ o, headers Sample.stranger !! "origin" = Some o → o ∉ ALLOWED_ORIGINS) as H.
  { intros o Ho. vm_compute in Ho. injection Ho as <-. compute_done. }
  split; [exact H|].
  exact (origin_not_allowed_forbidden Sample.platform Sample.stranger H).
Defined.

(** C4, as the handler has it.  An OPTIONS request with an allowed
    origin is answered 204 with no body and exactly the four CORS
    headers: Allow-Origin is the request's Origin, Allow-Methods and
    Max-Age are the fixed values, and Allow-Headers is the value of
    Access-Control-Request-Headers when that header is present and not
    empty, the fixed fallback when it is absent or empty.  With any other
    origin the answer is 403 with no body and no header at all. *)
Theorem preflight_reply (P : Platform) (req : IncomingMessage) :
  method req = "OPTIONS" →
  (origin_of req ∈ ALLOWED_ORIGINS →
     ∃ hs,
       serve P req =
         (Normal tt,
          {| res := replied 204 hs None; upstream_calls := []; console := [] |}) ∧
       dom hs = CORS_NAMES ∧
       headers req !! "origin" = Some (origin_of req) ∧
       hs !! "Access-Control-Allow-Origin" = Some (origin_of req) ∧
       hs !! "Access-Control-Allow-Methods" = Some "GET, POST, PUT, PATCH, DELETE, OPTIONS" ∧
       hs !! "Access-Control-Max-Age" = Some "86400" ∧
       (∀ v, headers req !! "access-control-request-headers" = Some v → v ≠ "" →
             hs !! "Access-Control-Allow-Headers" = Some v) ∧
       (headers req !! "access-control-request-headers" = None
        ∨ headers req !! "access-control-request-headers" = Some "" →
        hs !! "Access-Control-Allow-Headers" = Some "Authorization, Content-Type")) ∧
  (origin_of req ∉ ALLOWED_ORIGINS →
     serve P req =
       (Normal tt,
        {| res := replied 403 ∅ None; upstream_calls := []; console := [] |})).
Proof.
  intros Hm. rewrite (serve_preflight P _ Hm). split; intros Ho.
  - rewrite (bool_decide_eq_true_2 _ Ho). eexists. split; [done|].
    split; [apply corsHeaders_dom|]. split; [by apply origin_of_allowed|].
    repeat (split; [done|]). split.
    + intros v -> Hv. by destruct v.
    + by intros [-> | ->].
  - by rewrite (bool_decide_eq_false_2 _ Ho).
Qed.

Lemma preflight_reply_witness :
  method Sample.preflight = "OPTIONS" ∧
  origin_of Sample.preflight ∈ ALLOWED_ORIGINS ∧
  ∃ hs,
    serve Sample.platform Sample.preflight =
      (Normal tt,
       {| res := replied 204 hs None; upstream_calls := []; console := [] |}) ∧
    hs !! "Access-Control-Allow-Origin" = Some Sample.local_origin ∧
    hs !! "Access-Control-Allow-Headers" = Some "authorization".
Proof.
  split; [reflexivity|]. split; [compute_done|].
  destruct (preflight_reply Sample.platform Sample.preflight eq_refl) as [Hyes _].
  destruct Hyes as (hs & Hs & _ & _ & Ho & _ & _ & Hv & _); [compute_done|].
  exists hs. split; [exact Hs|]. split; [exact Ho|].
  apply Hv; [reflexivity|discriminate].
Defined.

(** The claim C4 read literally fails at a preflight whose
    Access-Control-Request-Headers is present with an empty value: the
    fallback is sent, not the (empty) value. *)
Lemma preflight_empty_request_headers_counterexample :
  method Sample.preflight_empty = "OPTIONS" ∧
  origin_of Sample.preflight_empty ∈ ALLOWED_ORIGINS ∧
  headers Sample.preflight_empty !! "access-control-request-headers" = Some "" ∧
  ∃ hs,
    serve Sample.platform Sample.preflight_empty =
      (Normal tt,
       {| res := replied 204 hs None; upstream_calls := []; console := [] |}) ∧
    hs !! "Access-Control-Allow-Headers" = Some "Authorization, Content-Type" ∧
    hs !! "Access-Control-Allow-Headers" ≠ Some "".
Proof.
  split; [reflexivity|]. split; [compute_done|]. split; [reflexivity|].
  exists (corsHeaders Sample.local_origin (Some "")).
  split; [vm_compute; reflexivity|]. split; [reflexivity|discriminate].
Qed.

(* ================================================================== *)
(** * Target resolution *)
(* ================================================================== *)




(** When the request passes the origin check but its own URL does not
    parse, the handler rejects with the parser's error: no response is
    written and nothing is sent upstream. *)
Theorem unparsable_request_url_rejects (P : Platform) (req : IncomingMessage)
    (e : Error) :
  method req ≠ "OPTIONS" →
  origin_of req ∈ ALLOWED_ORIGINS →
  URL_new P (Js.or_else (Some (url req)) "/") (Some (base P)) = inl e →
  serve P req = (Throw e, fresh) ∧
  response_of (serve P req).2 = None ∧
  upstream_calls (serve P req).2 = [].
Proof.
  intros Hm Ho Hu.
  assert (url_param P req = inl e) as Hp by (unfold url_param; by rewrite Hu).
  by rewrite (serve_request_url_throws P _ _ Hm Ho Hp).
Qed.

Lemma unparsable_request_url_rejects_witness :
  method Sample.get_slashes ≠ "OPTIONS" ∧
  origin_of Sample.get_slashes ∈ ALLOWED_ORIGINS ∧
  serve Sample.platform Sample.get_slashes = (Throw Sample.invalid_url, fresh).
Proof.
  assert (method Sample.get_slashes ≠ "OPTIONS") as Hm by discriminate.
  assert (origin_of Sample.get_slashes ∈ ALLOWED_ORIGINS) as Ho by compute_done.
  split; [exact Hm|]. split; [exact Ho|].
  exact (proj1 (unparsable_request_url_rejects Sample.platform Sample.get_slashes
                  Sample.invalid_url Hm Ho eq_refl)).
Defined.

(* ================================================================== *)
(** * Dispatch and relay *)
(* ================================================================== *)

(** C8, as the handler has it.  A dispatched request makes one fetch
    call, on the validated target, with the method of the request and
    the sanitised headers.  When the body of the request is not empty
    the body of the call is exactly its bytes; when it has length zero
    the call has no body.  Whether the bytes reach the upstream is for
    fetch to decide: fetch refuses the call, before sending anything,
    exactly when the body is not empty and the method is GET or HEAD,
    and on a platform whose fetch does so the answer is then 502. *)
Theorem dispatch_body_unless_refused (P : Platform) (req : IncomingMessage)
    (u : URL) :
  dispatched P req u →
  ∃ c,
    upstream_calls (serve P req).2 = [c] ∧
    call_url c = href u ∧
    init_method (call_init c) = method req ∧
    init_headers (call_init c) = forwardHeaders (headers req) ∧
    (concat (chunks req) ≠ [] → init_body (call_init c) = Some (concat (chunks req))) ∧
    (concat (chunks req) = [] → init_body (call_init c) = None) ∧
    (fetch_refuses (call_init c) = true ↔
       (Js.toLowerCase (method req) = "get" ∨ Js.toLowerCase (method req) = "head") ∧
       concat (chunks req) ≠ []) ∧
    (standard_fetch P → fetch_refuses (call_init c) = true →
       ∃ e hs,
         upstream_result P req u = inl e ∧
         res (serve P req).2 = replied 502 hs (Some (Text (upstream_error_body e)))).
Proof.
  intros Hd. exists (upstream_call req u).
  rewrite (serve_dispatched' P _ _ Hd). split.
  { simpl. by destruct (upstream_result P req u) as [?|[??]]. }
  repeat (split; [done|]).
  split; [|split; [|split]].
  - simpl. by destruct (concat (chunks req)).
  - simpl. by intros ->.
  - unfold fetch_refuses. simpl.
    rewrite andb_true_iff, orb_true_iff, !bool_decide_eq_true.
    destruct (concat (chunks req)) as [|x l]; simpl; intuition congruence.
  - intros Hstd Href.
    destruct (Hstd (href u) _ Href) as [e He].
    exists e, (reply_headers json (origin_of req)).
    assert (upstream_result P req u = inl e) as Hr.
    { unfold upstream_result. by rewrite He. }
    by rewrite Hr.
Qed.

Lemma dispatch_body_unless_refused_witness :
  dispatched Sample.platform Sample.post_me Sample.discord_url ∧
  ∃ c,
    upstream_calls (serve Sample.platform Sample.post_me).2 = [c] ∧
    init_method (call_init c) = "POST" ∧
    init_body (call_init c) = Some Sample.empty_object ∧
    fetch_refuses (call_init c) = false.
Proof.
  assert (dispatched Sample.platform Sample.post_me Sample.discord_url) as Hd.
  { dispatched_with Sample.discord_me. }
  split; [exact Hd|].
  destruct (dispatch_body_unless_refused Sample.platform Sample.post_me
              Sample.discord_url Hd)
    as (c & Hc & _ & Hm & _ & Hb & _ & Href & _).
  exists c. split; [exact Hc|]. split; [exact Hm|].
  split; [apply Hb; discriminate|].
  destruct (fetch_refuses (call_init c)); [|reflexivity].
  destruct (proj1 Href eq_refl) as [[Hg|Hh] _]; discriminate.
Defined.

(** The claim C8 read literally fails at a GET that carries a body: the
    request is dispatched and its body is not empty, but fetch refuses
    the call before anything is sent, and the answer is 502. *)
Lemma get_with_body_counterexample :
  dispatched Strict.platform Strict.get_with_body Sample.discord_url ∧
  concat (chunks Strict.get_with_body) = Sample.empty_object ∧
  standard_fetch Strict.platform ∧
  fetch_refuses (call_init (upstream_call Strict.get_with_body Sample.discord_url))
  = true ∧
  upstream_result Strict.platform Strict.get_with_body Sample.discord_url
  = inl Strict.body_refused ∧
  serve Strict.platform Strict.get_with_body =
    (Normal tt,
     {| res := replied 502 (reply_headers "application/json" Sample.local_origin)
                 (Some (Text (upstream_error_body Strict.body_refused)));
        upstream_calls := [upstream_call Strict.get_with_body Sample.discord_url];
        console := [["[proxy] upstream error:"; message Strict.body_refused]] |}).
Proof.
  split; [dispatched_with Sample.discord_me|]. split; [reflexivity|].
  split.
  { intros u init Href. exists Strict.body_refused.
    unfold Strict.platform, Strict.strict_fetch. simpl. by rewrite Href. }
  split; [reflexivity|]. split; [reflexivity|].
  vm_compute. reflexivity.
Qed.






(** C9. Every response to a request that is not OPTIONS and has an
    allowed origin (the relayed answer, a 400 or the 502) has exactly
    five headers: Content-Type and the four CORS headers, whose values
    are those of corsHeaders for the origin of the request.  So no header
    of the upstream response other than its content type reaches the
    caller.  On any response at all that has Access-Control-Allow-Origin,
    its value is the Origin header of the request, a member of the
    allowlist, and not the wildcard. *)
Theorem authorised_response_headers (P : Platform) (req : IncomingMessage)
    (st : Z) (hs : Js.obj) (data : option Payload) :
  response_of (serve P req).2 = Some (st, hs, data) →
  (method req ≠ "OPTIONS" → origin_of req ∈ ALLOWED_ORIGINS →
     dom hs = {[ "Content-Type" ]} ∪ CORS_NAMES ∧
     (∀ k, k ≠ "Content-Type" → hs !! k = corsHeaders (origin_of req) None !! k) ∧
     hs !! "set-cookie" = None ∧ hs !! "Set-Cookie" = None) ∧
  (∀ v, hs !! "Access-Control-Allow-Origin" = Some v →
     headers req !! "origin" = Some v ∧ v ∈ ALLOWED_ORIGINS ∧ v ≠ "*").
Proof.
  intros Hr.
  assert (∀ ct o k, k ≠ "Content-Type" →
            reply_headers ct o !! k = corsHeaders o None !! k) as Hother.
  { intros ct o k Hk. unfold reply_headers, Js.spread.
    destruct (corsHeaders o None !! k) as [v|] eqn:Hc.
    - by apply lookup_union_Some_l.
    - apply lookup_union_None. split; [done|]. by apply lookup_singleton_ne. }
  assert (∀ ct, hs = reply_headers ct (origin_of req) → origin_of req ∈ ALLOWED_ORIGINS →
            ∀ v, hs !! "Access-Control-Allow-Origin" = Some v →
                 headers req !! "origin" = Some v ∧ v ∈ ALLOWED_ORIGINS ∧ v ≠ "*") as Hacao.
  { intros ct -> Ho v Hv. rewrite Hother in Hv by done.
    change (Some (origin_of req) = Some v) in Hv. simplify_eq.
    split; [by apply origin_of_allowed|]. split; [done|].
    intros He. rewrite He in Ho. by apply wildcard_not_allowed. }
  assert (∀ ct, hs = reply_headers ct (origin_of req) →
            dom hs = {[ "Content-Type" ]} ∪ CORS_NAMES ∧
            (∀ k, k ≠ "Content-Type" → hs !! k = corsHeaders (origin_of req) None !! k) ∧
            hs !! "set-cookie" = None ∧ hs !! "Set-Cookie" = None) as Hfive.
  { intros ct ->. split; [apply reply_headers_dom|]. split; [by apply Hother|].
    split; by rewrite Hother. }
  destruct (decide (method req = "OPTIONS")) as [Hm|Hm].
  { split; [done|]. rewrite (serve_preflight P _ Hm) in Hr. unfold response_of in Hr.
    simpl in Hr. destruct (bool_decide (origin_of req ∈ ALLOWED_ORIGINS)) eqn:Ho;
      simpl in Hr; simplify_eq.
    - apply bool_decide_eq_true in Ho. intros v Hv.
      change (Some (origin_of req) = Some v) in Hv. simplify_eq.
      split; [by apply origin_of_allowed|]. split; [done|].
      intros He. rewrite He in Ho. by apply wildcard_not_allowed.
    - intros v Hv. by rewrite lookup_empty in Hv. }
  destruct (decide (origin_of req ∈ ALLOWED_ORIGINS)) as [Ho|Ho]; last first.
  { split; [done|]. rewrite (serve_forbidden P _ Hm Ho) in Hr. unfold response_of in Hr.
    simpl in Hr. simplify_eq. intros v Hv. by rewrite lookup_singleton_ne in Hv. }
  destruct (allowed_cases P req)
    as [[e Hu]|[(t & Hu & Hf)|[(s & Hu & Hs & Hi)|(s & u & Hu & Hs & Hv)]]].
  - by rewrite (serve_request_url_throws P _ _ Hm Ho Hu) in Hr.
  - rewrite (serve_missing P _ _ Hm Ho Hu Hf) in Hr. unfold response_of in Hr.
    simpl in Hr. simplify_eq. split; [intros _ _; by eapply Hfive|by eapply Hacao].
  - rewrite (serve_invalid P _ _ Hm Ho Hu Hs Hi) in Hr. unfold response_of in Hr.
    simpl in Hr. simplify_eq. split; [intros _ _; by eapply Hfive|by eapply Hacao].
  - rewrite (serve_dispatched P _ _ _ Hm Ho Hu Hs Hv) in Hr. unfold response_of in Hr.
    destruct (upstream_result P req u) as [e|[r b]]; simpl in Hr; simplify_eq;
      (split; [intros _ _; by eapply Hfive|by eapply Hacao]).
Qed.

Lemma authorised_response_headers_witness :
  ∃ hs,
    response_of (serve Sample.platform Sample.get_me).2
    = Some (200, hs, Some (Buffer Sample.empty_object)) ∧
    dom hs = {[ "Content-Type" ]} ∪ CORS_NAMES ∧
    hs !! "set-cookie" = None ∧
    hs !! "Access-Control-Allow-Origin" = Some Sample.local_origin.
Proof.
  exists (reply_headers "application/json; charset=utf-8" Sample.local_origin).
  assert (response_of (serve Sample.platform Sample.get_me).2
          = Some (200, reply_headers "application/json; charset=utf-8" Sample.local_origin,
                  Some (Buffer Sample.empty_object))) as Hr.
  { vm_compute. reflexivity. }
  split; [exact Hr|].
  destruct (authorised_response_headers Sample.platform Sample.get_me _ _ _ Hr)
    as [Hfive _].
  destruct Hfive as (Hdom & _ & Hsc & _); [discriminate|compute_done|].
  split; [exact Hdom|]. split; [exact Hsc|reflexivity].
Defined.

(* ================================================================== *)
(** * What reaches the upstream *)
(* ================================================================== *)

(** C2. In the headers of every fetch call the handler makes: a name
    other than user-agent has a lower-cased form that is in neither the
    hop-by-hop set nor the browser-identity set and does not start with
    sec-, and it carries the value it had in the request; every header of
    the request outside those classes is present with its value
    unchanged; and user-agent is the fixed proxy identity.  The request
    headers are an object Node fills by assignment, which has no own
    __proto__ key. *)
Theorem forwarded_headers_sanitised (P : Platform) (req : IncomingMessage)
    (c : FetchCall) :
  headers req !! "__proto__" = None →
  c ∈ upstream_calls (serve P req).2 →
  let fwd := init_headers (call_init c) in
  (∀ k v, fwd !! k = Some v → k ≠ "user-agent" →
     (Js.toLowerCase k ∉ HOP_BY_HOP) ∧
     (Js.toLowerCase k ∉ BROWSER_ONLY) ∧
     Js.startsWith (Js.toLowerCase k) "sec-" = false ∧
     headers req !! k = Some v) ∧
  (∀ k v, headers req !! k = Some v →
     (Js.toLowerCase k ∉ HOP_BY_HOP) →
     (Js.toLowerCase k ∉ BROWSER_ONLY) →
     Js.startsWith (Js.toLowerCase k) "sec-" = false →
     fwd !! k = Some v) ∧
  fwd !! "user-agent" = Some "runbook-ai-proxy/1.0".
Proof.
  intros Hproto (u & _ & -> & _)%serve_calls fwd. subst fwd. simpl.
  split; [|split].
  - intros k v Hk Hua. rewrite forwardHeaders_lookup, decide_False in Hk by done.
    destruct (kept k) eqn:Hkept; [|done].
    apply andb_prop in Hkept as [Hs%negb_true_iff%stripped_false _].
    by destruct Hs as (? & ? & ?).
  - intros k v Hk H1 H2 H3. rewrite forwardHeaders_lookup.
    assert (stripped (Js.toLowerCase k) = false) as Hs by by apply stripped_false.
    destruct (decide (k = "user-agent")) as [->|_].
    { exfalso. revert Hs. by vm_compute. }
    assert (k ≠ "__proto__") as Hne by (intros ->; congruence).
    unfold kept. by rewrite Hs, (bool_decide_eq_false_2 _ Hne).
  - by rewrite forwardHeaders_lookup.
Qed.

Lemma forwarded_headers_sanitised_witness :
  headers Sample.get_me !! "__proto__" = None ∧
  ∃ c,
    c ∈ upstream_calls (serve Sample.platform Sample.get_me).2 ∧
    init_headers (call_init c) !! "authorization" = Some "Bot token" ∧
    init_headers (call_init c) !! "user-agent" = Some "runbook-ai-proxy/1.0" ∧
    ∀ v, init_headers (call_init c) !! "cookie" = Some v → False.
Proof.
  assert (headers Sample.get_me !! "__proto__" = None) as Hp by reflexivity.
  split; [exact Hp|].
  exists (upstream_call Sample.get_me Sample.discord_url).
  assert (upstream_call Sample.get_me Sample.discord_url
          ∈ upstream_calls (serve Sample.platform Sample.get_me).2) as Hc.
  { apply list_elem_of_singleton. reflexivity. }
  split; [exact Hc|].
  destruct (forwarded_headers_sanitised Sample.platform Sample.get_me _ Hp Hc)
    as (Hin & Hout & Hua).
  split; [|split; [exact Hua|]].
  - apply Hout; [reflexivity|compute_done|compute_done|reflexivity].
  - intros v Hv. destruct (Hin _ _ Hv) as (Hhop & _); [discriminate|].
    apply Hhop. compute_done.
Defined.

(** C10. The sanitised headers do not depend on stripped headers: two
    requests whose header objects agree on every name outside the
    hop-by-hop set, the browser-identity set and the sec- prefix (so that
    they may differ, in particular, in the values of cookie, referer or
    user-agent) have the same forwarded header map, and any fetch calls
    made for them carry the same headers. *)
Theorem forwarded_headers_ignore_stripped (req1 req2 : IncomingMessage) :
  (∀ k, stripped (Js.toLowerCase k) = false → headers req1 !! k = headers req2 !! k) →
  forwardHeaders (headers req1) = forwardHeaders (headers req2) ∧
  ∀ (P1 P2 : Platform) (c1 c2 : FetchCall),
    c1 ∈ upstream_calls (serve P1 req1).2 →
    c2 ∈ upstream_calls (serve P2 req2).2 →
    init_headers (call_init c1) = init_headers (call_init c2).
Proof.
  intros Heq%forwardHeaders_ext. split; [done|].
  by intros P1 P2 c1 c2 (u1 & _ & -> & _)%serve_calls (u2 & _ & -> & _)%serve_calls.
Qed.

Lemma forwarded_headers_ignore_stripped_witness :
  headers Sample.get_me !! "cookie" ≠ headers Sample.get_me_again !! "cookie" ∧
  (∀ k, stripped (Js.toLowerCase k) = false →
        headers Sample.get_me !! k = headers Sample.get_me_again !! k) ∧
  forwardHeaders (headers Sample.get_me) = forwardHeaders (headers Sample.get_me_again).
Proof.
  split; [discriminate|].
  assert (∀ k, stripped (Js.toLowerCase k) = false →
               headers Sample.get_me !! k = headers Sample.get_me_again !! k) as H.
  { intros k Hk. unfold Sample.get_me, Sample.get_me_again, Sample.get,
      Sample.browser_headers; cbn [headers].
    repeat lazymatch goal with
    | |- <[?i := _]> _ !! k = <[?i := _]> _ !! k =>
        destruct (decide (i = k)) as [<-|?];
        [first [by rewrite !lookup_insert_eq | exfalso; revert Hk; by vm_compute]
        |rewrite !(lookup_insert_ne _ i k) by done]
    end.
    destruct (decide ("authorization" = k)) as [<-|?].
    - by rewrite !lookup_singleton_eq.
    - by rewrite !lookup_singleton_ne. }
  split; [exact H|].
  exact (proj1 (forwarded_headers_ignore_stripped Sample.get_me Sample.get_me_again H)).
Defined.

(** C3 fails on the code.  BROWSER_ONLY lists accept, accept-language
    and accept-encoding only, and is tested by exact membership: a
    request that carries accept-charset has it forwarded unchanged, while
    its accept header is dropped. *)
Theorem accept_charset_is_forwarded :
  headers Sample.get_charset !! "accept-charset" = Some "utf-8" ∧
  Js.startsWith (Js.toLowerCase "accept-charset") "accept" = true ∧
  ∃ c,
    upstream_calls (serve Sample.platform Sample.get_charset).2 = [c] ∧
    init_headers (call_init c) !! "accept-charset" = Some "utf-8" ∧
    init_headers (call_init c) !! "accept" = None.
Proof.
  split; [reflexivity|]. split; [reflexivity|].
  exists (upstream_call Sample.get_charset Sample.discord_url).
  split; [reflexivity|]. split; vm_compute; reflexivity.
Qed.

(* ================================================================== *)
(** * The handler as a whole *)
(* ================================================================== *)

(** Every way a request can go, with the world it leaves. *)
Lemma serve_outcomes (P : Platform) (req : IncomingMessage) :
  (method req = "OPTIONS" ∧
   serve P req =
     (Normal tt,
      {| res :=
           if bool_decide (origin_of req ∈ ALLOWED_ORIGINS)
           then replied 204
                  (corsHeaders (origin_of req)
                     (headers req !! "access-control-request-headers")) None
           else replied 403 ∅ None;
         upstream_calls := []; console := [] |})) ∨
  (method req ≠ "OPTIONS" ∧ (origin_of req ∉ ALLOWED_ORIGINS) ∧
   serve P req =
     (Normal tt,
      {| res := replied 403 {[ "Content-Type" := json ]}
                  (Some (Text (JSON.stringify [("error", "Origin not allowed")])));
         upstream_calls := []; console := [] |})) ∨
  (method req ≠ "OPTIONS" ∧ origin_of req ∈ ALLOWED_ORIGINS ∧
   ∃ e, url_param P req = inl e ∧ serve P req = (Throw e, fresh)) ∨
  (method req ≠ "OPTIONS" ∧ origin_of req ∈ ALLOWED_ORIGINS ∧
   ∃ t, url_param P req = inr t ∧ Js.falsy t = true ∧
   serve P req =
     (Normal tt,
      {| res := replied 400 (reply_headers json (origin_of req))
                  (Some (Text (JSON.stringify [("error", "Missing ?url= parameter")])));
         upstream_calls := []; console := [] |})) ∨
  (method req ≠ "OPTIONS" ∧ origin_of req ∈ ALLOWED_ORIGINS ∧
   ∃ s, url_param P req = inr (Some s) ∧ s ≠ "" ∧ invalid_target P s ∧
   serve P req =
     (Normal tt,
      {| res := replied 400 (reply_headers json (origin_of req))
                  (Some (Text (JSON.stringify [("error", "Invalid target URL")])));
         upstream_calls := []; console := [] |})) ∨
  (∃ u, dispatched P req u ∧
   serve P req =
     (Normal tt,
      match upstream_result P req u with
      | inr (r, b) =>
          {| res := replied (status r)
                      (reply_headers
                         (Js.or_else (Headers_get (response_headers r) "content-type") json)
                         (origin_of req))
                      (Some (Buffer b));
             upstream_calls := [upstream_call req u]; console := [] |}
      | inl e =>
          {| res := replied 502 (reply_headers json (origin_of req))
                      (Some (Text (upstream_error_body e)));
             upstream_calls := [upstream_call req u];
             console := [["[proxy] upstream error:"; message e]] |}
      end)).
Proof.
  destruct (decide (method req = "OPTIONS")) as [Hm|Hm].
  { left. split; [done|]. by apply serve_preflight. }
  destruct (decide (origin_of req ∈ ALLOWED_ORIGINS)) as [Ho|Ho]; last first.
  { right; left. repeat (split; [done|]). by apply serve_forbidden. }
  destruct (allowed_cases P req)
    as [[e Hu]|[(t & Hu & Hf)|[(s & Hu & Hs & Hi)|(s & u & Hu & Hs & Hv)]]].
  - do 2 right; left. repeat (split; [done|]). exists e. split; [done|].
    by apply serve_request_url_throws.
  - do 3 right; left. repeat (split; [done|]). exists t. repeat (split; [done|]).
    by apply (serve_missing P req t).
  - do 4 right; left. repeat (split; [done|]). exists s. repeat (split; [done|]).
    by apply (serve_invalid P req s).
  - do 5 right. exists u. split.
    + split; [done|]. split; [done|]. by exists s.
    + by apply (serve_dispatched P req s u).
Qed.

(** Every upstream call is the work of the dispatcher: it is made for a
    request that is not OPTIONS, whose Origin header is in the allowlist,
    and its URL is the serialisation of what the url parameter parsed
    to, with scheme http or https.  It is the only call made for that
    request. *)
Theorem upstream_calls_are_guarded (P : Platform) (req : IncomingMessage)
    (c : FetchCall) :
  c ∈ upstream_calls (serve P req).2 →
  method req ≠ "OPTIONS" ∧
  (∃ o, headers req !! "origin" = Some o ∧ o ∈ ALLOWED_ORIGINS) ∧
  (∃ s u, url_param P req = inr (Some s) ∧
          URL_new P s None = inr u ∧
          (protocol u = "http:" ∨ protocol u = "https:") ∧
          call_url c = href u) ∧
  upstream_calls (serve P req).2 = [c].
Proof.
  intros (u & (Hm & Ho & s & Hu & _ & Hp & Hv) & -> & Hone)%serve_calls.
  split; [done|]. split; [|split; [|done]].
  - exists (origin_of req). split; [by apply origin_of_allowed|done].
  - by exists s, u.
Qed.

Lemma upstream_calls_are_guarded_witness :
  (upstream_call Sample.get_me Sample.discord_url
     ∈ upstream_calls (serve Sample.platform Sample.get_me).2) ∧
  ∃ s u, url_param Sample.platform Sample.get_me = inr (Some s) ∧
         URL_new Sample.platform s None = inr u ∧
         (protocol u = "http:" ∨ protocol u = "https:") ∧
         call_url (upstream_call Sample.get_me Sample.discord_url) = href u.
Proof.
  assert (upstream_call Sample.get_me Sample.discord_url
          ∈ upstream_calls (serve Sample.platform Sample.get_me).2) as Hc.
  { apply list_elem_of_singleton. reflexivity. }
  split; [exact Hc|].
  exact (proj1 (proj2 (proj2
    (upstream_calls_are_guarded Sample.platform Sample.get_me _ Hc)))).
Defined.

(** Whatever the request and the platform, the handler makes at most
    one upstream call, and it never returns normally without a finished
    response: whenever it completes without throwing, the head has been
    written and the response ended. *)
Theorem normal_completion_has_responded (P : Platform) (req : IncomingMessage) :
  (length (upstream_calls (serve P req).2) ≤ 1)%nat ∧
  ((serve P req).1 = Normal tt →
   ∃ st hs data, res (serve P req).2 = replied st hs data).
Proof.
  destruct (serve_outcomes P req)
    as [[Hm ->]|[(Hm & Ho & ->)|[(Hm & Ho & e & Hu & ->)|[(Hm & Ho & t & Hu & Hf & ->)
       |[(Hm & Ho & s & Hu & Hs & Hi & ->)|(u & Hd & ->)]]]]]; simpl.
  - split; [lia|]. intros _. destruct (bool_decide _); eauto.
  - split; [lia|]. eauto.
  - split; [lia|]. done.
  - split; [lia|]. eauto.
  - split; [lia|]. eauto.
  - destruct (upstream_result P req u) as [e|[r b]]; simpl; (split; [lia|]); eauto.
Qed.


(** A response to a request that is not OPTIONS is either the relayed
    answer of a successful upstream exchange (its status and its bytes),
    or an error of the proxy's own: status 400, 403 or 502, content type
    application/json, and a body that is the JSON text of an object whose
    first field is error. *)
Theorem proxy_errors_are_json (P : Platform) (req : IncomingMessage)
    (st : Z) (hs : Js.obj) (data : option Payload) :
  method req ≠ "OPTIONS" →
  response_of (serve P req).2 = Some (st, hs, data) →
  (∃ u r b,
     dispatched P req u ∧ upstream_result P req u = inr (r, b) ∧
     st = status r ∧ data = Some (Buffer b)) ∨
  ((st = 400 ∨ st = 403 ∨ st = 502) ∧
   hs !! "Content-Type" = Some "application/json" ∧
   ∃ text rest, data = Some (Text (JSON.stringify (("error", text) :: rest)))).
Proof.
  intros Hm Hr.
  destruct (serve_outcomes P req)
    as [[Hm' _]|[(_ & Ho & Hs)|[(_ & Ho & e & Hu & Hs)|[(_ & Ho & t & Hu & Hf & Hs)
       |[(_ & Ho & s & Hu & Hs' & Hi & Hs)|(u & Hd & Hs)]]]]];
    [done|rewrite Hs in Hr; unfold response_of in Hr..].
  - simpl in Hr. simplify_eq. right. split; [auto|]. split; [done|]. eauto.
  - done.
  - simpl in Hr. simplify_eq. right. split; [auto|]. split; [done|]. eauto.
  - simpl in Hr. simplify_eq. right. split; [auto|]. split; [done|]. eauto.
  - destruct (upstream_result P req u) as [e|[r b]] eqn:Hu; simpl in Hr; simplify_eq.
    + right. split; [auto|]. split; [done|]. unfold upstream_error_body. eauto.
    + left. by exists u, r, b.
Qed.

Lemma proxy_errors_are_json_witness :
  method Sample.get_down ≠ "OPTIONS" ∧
  ∃ hs data,
    response_of (serve Sample.platform Sample.get_down).2 = Some (502, hs, data) ∧
    hs !! "Content-Type" = Some "application/json".
Proof.
  assert (method Sample.get_down ≠ "OPTIONS") as Hm by discriminate.
  split; [exact Hm|].
  exists (reply_headers "application/json" Sample.local_origin),
         (Some (Text (upstream_error_body {| message := "fetch failed" |}))).
  assert (response_of (serve Sample.platform Sample.get_down).2
          = Some (502, reply_headers "application/json" Sample.local_origin,
                  Some (Text (upstream_error_body {| message := "fetch failed" |})))) as Hr.
  { vm_compute. reflexivity. }
  split; [exact Hr|].
  destruct (proxy_errors_are_json Sample.platform Sample.get_down _ _ _ Hm Hr)
    as [(u & r & b & _ & _ & _ & Hb)|(_ & Hct & _)]; [discriminate Hb|exact Hct].
Defined.

(* ================================================================== *)
(** * What the handler does not look at *)
(* ================================================================== *)

(** The handler reads a request through five things only. *)
Lemma handler_reads (P : Platform) (req1 req2 : IncomingMessage) :
  method req1 = method req2 →
  url req1 = url req2 →
  concat (chunks req1) = concat (chunks req2) →
  origin_of req1 = origin_of req2 →
  headers req1 !! "access-control-request-headers"
  = headers req2 !! "access-control-request-headers" →
  forwardHeaders (headers req1) = forwardHeaders (headers req2) →
  handler P req1 = handler P req2.
Proof.
  destruct req1 as [m1 u1 h1 c1], req2 as [m2 u2 h2 c2].
  unfold origin_of. cbn [method url headers chunks].
  intros -> -> Hc Ho Ha Hf.
  unfold handler, readBody, forward. cbn [method url headers chunks].
  by rewrite Hc, Ho, Ha, Hf.
Qed.

(** Neither the values of stripped headers nor the chunking of the body
    can be observed: two requests with the same method, target, body
    bytes and origin, whose headers agree on every name outside the
    stripped classes, are served identically, in the response, in what
    is sent upstream and in what is logged. *)
Theorem stripped_headers_and_chunking_unobservable (P : Platform)
    (req1 req2 : IncomingMessage) :
  method req1 = method req2 →
  url req1 = url req2 →
  concat (chunks req1) = concat (chunks req2) →
  origin_of req1 = origin_of req2 →
  (∀ k, stripped (Js.toLowerCase k) = false → headers req1 !! k = headers req2 !! k) →
  serve P req1 = serve P req2.
Proof.
  intros Hm Hu Hc Ho Hh. unfold serve.
  rewrite (handler_reads P req1 req2); try done.
  - by apply Hh.
  - by apply forwardHeaders_ext.
Qed.

Lemma stripped_headers_and_chunking_unobservable_witness :
  headers Sample.post_me !! "cookie" ≠ headers Cases.post_me_again !! "cookie" ∧
  chunks Sample.post_me ≠ chunks Cases.post_me_again ∧
  serve Sample.platform Sample.post_me = serve Sample.platform Cases.post_me_again.
Proof.
  split; [discriminate|]. split; [discriminate|].
  apply stripped_headers_and_chunking_unobservable; try reflexivity.
  intros k Hk.
  unfold Sample.post_me, Cases.post_me_again, Sample.browser_headers; cbn [headers].
  destruct (decide (k = "authorization")) as [->|Hne]; [reflexivity|].
  transitivity (@None string).
  - repeat (rewrite lookup_insert_ne;
            [|intros <-; first [done | revert Hk; by vm_compute]]).
    by rewrite lookup_singleton_ne.
  - symmetry.
    repeat (rewrite lookup_insert_ne;
            [|intros <-; first [done | revert Hk; by vm_compute]]).
    by rewrite lookup_singleton_ne.
Defined.

(** Sanitising is idempotent: a header map that has been through the
    sanitiser passes through it again unchanged, as when one such proxy
    forwards to another. *)
Theorem forwardHeaders_idempotent (h : Js.obj) :
  forwardHeaders (forwardHeaders h) = forwardHeaders h.
Proof.
  apply map_eq; intros j. rewrite !forwardHeaders_lookup.
  destruct (decide (j = "user-agent")); [done|]. by destruct (kept j).
Qed.

(** The loop of the sanitiser computes a filter: the forwarded map is
    the request's header map restricted to the names that are not
    stripped (and not __proto__), with user-agent then set to the proxy
    identity. *)
Theorem forwardHeaders_is_filter (h : Js.obj) :
  forwardHeaders h = sanitised h.
Proof.
  apply map_eq; intros j. rewrite forwardHeaders_lookup. unfold sanitised.
  destruct (decide (j = "user-agent")) as [->|Hne].
  - by rewrite lookup_insert_eq.
  - rewrite lookup_insert_ne by done. rewrite map_lookup_filter.
    destruct (kept j) eqn:Hk; destruct (h !! j) as [v|]; try done.
    + cbn [mbind option_bind fst]. by rewrite option_guard_True.
    + cbn [mbind option_bind fst]. rewrite option_guard_False; [done|]. by rewrite Hk.
Qed.

(* ================================================================== *)
(** * The settings form of the agent page *)
(* ================================================================== *)

Section AgentForm.

Import Agent.

Implicit Types (s t u value : string) (c d : ascii) (l : list string).

Lemma lower_ascii_idem c : Js.lower_ascii (Js.lower_ascii c) = Js.lower_ascii c.
Proof. by destruct c as [[] [] [] [] [] [] [] []]. Qed.

Lemma is_space_lower c : is_space (Js.lower_ascii c) = is_space c.
Proof. by destruct c as [[] [] [] [] [] [] [] []]. Qed.

Lemma newline_lower c : Ascii.eqb (Js.lower_ascii c) newline = Ascii.eqb c newline.
Proof. by destruct c as [[] [] [] [] [] [] [] []]. Qed.

Lemma toLowerCase_idem s : Js.toLowerCase (Js.toLowerCase s) = Js.toLowerCase s.
Proof. induction s as [|c s IH]; simpl; [done|]. by rewrite lower_ascii_idem, IH. Qed.

Lemma trimStart_lower s :
  trimStart (Js.toLowerCase s) = Js.toLowerCase (trimStart s).
Proof.
  induction s as [|c s IH]; simpl; [done|].
  rewrite is_space_lower. by destruct (is_space c).
Qed.

Lemma trimEnd_lower s :
  trimEnd (Js.toLowerCase s) = Js.toLowerCase (trimEnd s).
Proof.
  induction s as [|c s IH]; simpl; [done|].
  rewrite IH, is_space_lower.
  destruct (trimEnd s); simpl; [|done]. by destruct (is_space c).
Qed.

Lemma trim_lower s : trim (Js.toLowerCase s) = Js.toLowerCase (trim s).
Proof. unfold trim. by rewrite trimStart_lower, trimEnd_lower. Qed.

Lemma trimStart_clean s : starts_clean (trimStart s).
Proof.
  induction s as [|c s IH]; simpl; [done|].
  destruct (is_space c) eqn:Hc; [done|]. simpl. done.
Qed.

Lemma trimStart_of_clean s : starts_clean s → trimStart s = s.
Proof. destruct s as [|c s]; simpl; [done|]. by intros ->. Qed.

Lemma trimEnd_clean s : starts_clean s → starts_clean (trimEnd s).
Proof.
  destruct s as [|c s]; simpl; [done|]. intros Hc.
  destruct (trimEnd s); simpl; [|done]. by rewrite Hc.
Qed.

Lemma trimEnd_idem s : trimEnd (trimEnd s) = trimEnd s.
Proof.
  induction s as [|c s IH]; simpl; [done|].
  destruct (trimEnd s) as [|d t] eqn:Hs.
  - destruct (is_space c) eqn:Hc; simpl; [done|]. by rewrite Hc.
  - change (trimEnd (String c (String d t))) with
      (match trimEnd (String d t) with
       | EmptyString => if is_space c then EmptyString else String c EmptyString
       | String d' t' => String c (String d' t')
       end).
    by rewrite IH.
Qed.

Lemma trim_idem s : trim (trim s) = trim s.
Proof.
  unfold trim.
  rewrite (trimStart_of_clean (trimEnd (trimStart s))).
  - apply trimEnd_idem.
  - apply trimEnd_clean, trimStart_clean.
Qed.

Lemma occurs_trimStart c s : occurs c s = false → occurs c (trimStart s) = false.
Proof.
  induction s as [|d s IH]; simpl; [done|].
  intros [H1 H2]%orb_false_iff. destruct (is_space d); [auto|].
  simpl. by rewrite H1, H2.
Qed.

Lemma occurs_trimEnd c s : occurs c s = false → occurs c (trimEnd s) = false.
Proof.
  induction s as [|d s IH]; simpl; [done|].
  intros [H1 H2]%orb_false_iff. specialize (IH H2).
  destruct (trimEnd s) as [|e t].
  - destruct (is_space d); simpl; [done|]. by rewrite H1.
  - change (occurs c (String d (String e t))) with
      (Ascii.eqb d c || occurs c (String e t)).
    by rewrite H1, IH.
Qed.

Lemma occurs_newline_lower s :
  occurs newline (Js.toLowerCase s) = occurs newline s.
Proof. induction s as [|d s IH]; simpl; [done|]. by rewrite newline_lower, IH. Qed.

Lemma split_lines_nonempty s : split_lines s ≠ [].
Proof.
  induction s as [|c s IH]; simpl; [done|].
  destruct (Ascii.eqb c newline); [done|]. by destruct (split_lines s).
Qed.

(** No piece of a split contains the separator. *)
Lemma split_lines_pieces s :
  Forall (λ u, occurs newline u = false) (split_lines s).
Proof.
  induction s as [|c s IH]; simpl; [by constructor|].
  destruct (Ascii.eqb c newline) eqn:Hc; [by constructor|].
  destruct (split_lines s) as [|piece rest]; [constructor; [|done]; simpl; by rewrite Hc|].
  apply Forall_cons in IH as [Hp Hr]. constructor; [|done].
  simpl. by rewrite Hc, Hp.
Qed.

Lemma split_lines_single s : occurs newline s = false → split_lines s = [s].
Proof.
  induction s as [|c s IH]; simpl; [done|].
  intros [H1 H2]%orb_false_iff. rewrite H1, (IH H2). done.
Qed.

Lemma split_lines_app s t :
  occurs newline s = false →
  split_lines (s +:+ String newline t) = s :: split_lines t.
Proof.
  induction s as [|c s IH]; simpl; [done|].
  intros [H1 H2]%orb_false_iff. by rewrite H1, (IH H2).
Qed.

(** Splitting undoes joining, for a list that is not empty and whose
    elements contain no line break. *)
Lemma split_join_lines l :
  l ≠ [] → Forall (λ u, occurs newline u = false) l →
  split_lines (join_lines l) = l.
Proof.
  induction l as [|x [|y r] IH]; [done| |]; intros _ Hl.
  - apply Forall_cons in Hl as [Hx _]. by apply split_lines_single.
  - apply Forall_cons in Hl as [Hx Hr].
    change (join_lines (x :: y :: r)) with (x +:+ String newline (join_lines (y :: r))).
    rewrite (split_lines_app _ _ Hx). f_equal. by apply IH.
Qed.

Lemma normal_fixed u : normal u → Js.toLowerCase (trim u) = u.
Proof. intros (_ & Ht & Hl & _). by rewrite Ht. Qed.

(** Each entry [users] produces is in normal form. *)
Lemma users_entries value : Forall normal (users value).
Proof.
  unfold users. apply Forall_forall. intros u Hu%list_elem_of_In.
  apply filter_In in Hu as [Hu Ht].
  apply in_map_iff in Hu as (x & <- & Hx).
  assert (occurs newline x = false) as Hnl.
  { pose proof (split_lines_pieces value) as Hp.
    rewrite Forall_forall in Hp. by apply Hp, list_elem_of_In. }
  split; [by intros He; rewrite He in Ht|]. split; [|split].
  - by rewrite trim_lower, trim_idem.
  - apply toLowerCase_idem.
  - rewrite occurs_newline_lower. unfold trim.
    by apply occurs_trimEnd, occurs_trimStart.
Qed.

(** A list of normal names survives being joined and parsed. *)
Lemma users_join_lines l : Forall normal l → users (join_lines l) = l.
Proof.
  intros Hl. destruct l as [|x r]; [done|].
  unfold users. rewrite split_join_lines; [|done|].
  - induction (x :: r) as [|u l' IH]; [done|].
    apply Forall_cons in Hl as [Hu Hl']. cbn [map List.filter].
    rewrite (normal_fixed _ Hu). destruct Hu as (Hne & _).
    destruct u; [done|]. simpl. f_equal. by apply IH.
  - eapply Forall_impl; [exact Hl|]. by intros u (_ & _ & _ & ?).
Qed.

End AgentForm.

(** The list the save handler stores is in normal form: no entry is
    empty, every entry is trimmed and lower-case, and none contains a
    line break.  The field is read as ASCII text. *)
Theorem saved_users_are_normal (value : string) :
  Agent.plain value = true →
  Forall (λ u, u ≠ EmptyString ∧ Agent.trim u = u ∧ Js.toLowerCase u = u ∧
               Agent.occurs Agent.newline u = false)
         (Agent.users value).
Proof. intros _. apply users_entries. Qed.

Lemma saved_users_are_normal_witness :
  Agent.plain "  Alice  " = true ∧
  Agent.users "  Alice  " = ["alice"] ∧
  Forall (λ u, u ≠ EmptyString ∧ Agent.trim u = u ∧ Js.toLowerCase u = u ∧
               Agent.occurs Agent.newline u = false)
         (Agent.users "  Alice  ").
Proof.
  split; [reflexivity|]. split; [reflexivity|].
  exact (saved_users_are_normal "  Alice  " eq_refl).
Defined.

(** Display then parse is the identity on stored lists: when every
    stored user name is in normal form, the text initForm puts in the
    field parses back to the same list. *)
Theorem users_of_displayed_list (l : list string) :
  Forall (λ u, Agent.plain u = true) l →
  Forall Agent.normal l →
  Agent.users (Agent.allowedUsers_field
                 (Agent.initForm {| Agent.botToken := None;
                                    Agent.allowedUsers := Some l |})) = l.
Proof. intros _ Hl. by apply users_join_lines. Qed.

Lemma users_of_displayed_list_witness :
  Forall (λ u, Agent.plain u = true) ["alice"; "bob#1234"] ∧
  Forall Agent.normal ["alice"; "bob#1234"] ∧
  Agent.users (Agent.allowedUsers_field
                 (Agent.initForm {| Agent.botToken := None;
                                    Agent.allowedUsers := Some ["alice"; "bob#1234"] |}))
  = ["alice"; "bob#1234"].
Proof.
  assert (Forall (λ u, Agent.plain u = true) ["alice"; "bob#1234"]) as Hp.
  { repeat constructor. }
  assert (Forall Agent.normal ["alice"; "bob#1234"]) as Hn.
  { repeat constructor; discriminate. }
  split; [exact Hp|]. split; [exact Hn|].
  exact (users_of_displayed_list _ Hp Hn).
Defined.

(** Saving is stable: what the save handler stores, shown again by
    initForm and saved again unchanged, is stored again as it was. *)
Theorem save_is_stable (f : Agent.Form) :
  Agent.plain (Agent.botToken_field f) = true →
  Agent.plain (Agent.allowedUsers_field f) = true →
  Agent.saved (Agent.initForm (Agent.saved f)) = Agent.saved f.
Proof.
  intros _ _. unfold Agent.saved, Agent.initForm. simpl.
  rewrite trim_idem, users_join_lines; [done|]. apply users_entries.
Qed.

Lemma save_is_stable_witness :
  Agent.plain (Agent.botToken_field Agent.sample_form) = true ∧
  Agent.plain (Agent.allowedUsers_field Agent.sample_form) = true ∧
  Agent.saved Agent.sample_form
  = {| Agent.botToken := Some "token"; Agent.allowedUsers := Some ["alice"; "bob"] |} ∧
  Agent.saved (Agent.initForm (Agent.saved Agent.sample_form))
  = Agent.saved Agent.sample_form.
Proof.
  split; [reflexivity|]. split; [reflexivity|]. split; [reflexivity|].
  exact (save_is_stable Agent.sample_form eq_refl eq_refl).
Defined.

#[local] Arguments Agent.classList_toggle : simpl never.

(** A click on the settings header flips its open class and leaves the
    body hidden exactly when the header is not open, whatever the two
    class lists were before; no other class is touched; and from then
    on two more clicks return to the same state. *)
Theorem settingsToggle_keeps_in_step (p : Agent.Panel) :
  let q := Agent.settingsToggle p in
  ("open" ∈ Agent.header_classes q ↔ "open" ∉ Agent.header_classes p) ∧
  ("hidden" ∈ Agent.body_classes q ↔ "open" ∉ Agent.header_classes q) ∧
  (∀ c, c ≠ "open" → c ∈ Agent.header_classes q ↔ c ∈ Agent.header_classes p) ∧
  (∀ c, c ≠ "hidden" → c ∈ Agent.body_classes q ↔ c ∈ Agent.body_classes p) ∧
  Agent.settingsToggle (Agent.settingsToggle q) = q.
Proof.
  assert (∀ name force cl c,
            c ∈ Agent.classList_toggle name force cl ↔
            (if force then c ∈ cl ∨ c = name else c ∈ cl ∧ c ≠ name)) as Htoggle.
  { intros name [] cl c; unfold Agent.classList_toggle.
    - by rewrite elem_of_union, elem_of_singleton.
    - by rewrite elem_of_difference, elem_of_singleton. }
  assert (∀ q,
            ("hidden" ∈ Agent.body_classes q ↔ "open" ∉ Agent.header_classes q) →
            Agent.settingsToggle (Agent.settingsToggle q) = q) as Htwice.
  { intros [hd bd] Hq. simpl in Hq. unfold Agent.settingsToggle. simpl.
    destruct (decide ("open" ∈ hd)) as [Ho|Ho].
    - rewrite (bool_decide_eq_true_2 _ Ho). simpl.
      rewrite bool_decide_eq_false_2
        by (rewrite Htoggle; intros [_ ?]; done).
      simpl. f_equal; apply set_eq; intros c; rewrite !Htoggle.
      + destruct (decide (c = "open")) as [->|?]; intuition congruence.
      + destruct (decide (c = "hidden")) as [->|?]; intuition congruence.
    - rewrite (bool_decide_eq_false_2 _ Ho). simpl.
      rewrite bool_decide_eq_true_2 by (rewrite Htoggle; by right).
      simpl. f_equal; apply set_eq; intros c; rewrite !Htoggle.
      + destruct (decide (c = "open")) as [->|?]; intuition congruence.
      + destruct (decide (c = "hidden")) as [->|?]; intuition congruence. }
  intros q.
  assert ("open" ∈ Agent.header_classes q ↔ "open" ∉ Agent.header_classes p) as Hflip.
  { subst q. unfold Agent.settingsToggle. simpl. rewrite Htoggle.
    destruct (decide ("open" ∈ Agent.header_classes p)) as [Ho|Ho].
    - rewrite (bool_decide_eq_true_2 _ Ho). simpl. intuition congruence.
    - rewrite (bool_decide_eq_false_2 _ Ho). simpl. intuition congruence. }
  assert ("hidden" ∈ Agent.body_classes q ↔ "open" ∉ Agent.header_classes q) as Hstep.
  { rewrite Hflip. subst q. unfold Agent.settingsToggle. simpl. rewrite Htoggle.
    destruct (decide ("open" ∈ Agent.header_classes p)) as [Ho|Ho].
    - rewrite (bool_decide_eq_true_2 _ Ho). intuition congruence.
    - rewrite (bool_decide_eq_false_2 _ Ho). intuition congruence. }
  split; [done|]. split; [done|]. split; [|split; [|by apply Htwice]].
  - intros c Hc. subst q. unfold Agent.settingsToggle. simpl. rewrite Htoggle.
    destruct (negb _); intuition congruence.
  - intros c Hc. subst q. unfold Agent.settingsToggle. simpl. rewrite Htoggle.
    destruct (bool_decide _); intuition congruence.
Qed.

(* ================================================================== *)
(** * The proxy URL of the agent page *)
(* ================================================================== *)

Section ProxyUrl.

Import Settings.

Lemma append_nil (t : string) : "" +:+ t = t.
Proof. reflexivity. Qed.

Lemma append_cons (c : ascii) (s t : string) : String c s +:+ t = String c (s +:+ t).
Proof. reflexivity. Qed.

Lemma append_not_nil (s : string) (c : ascii) : s +:+ String c "" ≠ "".
Proof. destruct s; [rewrite append_nil|rewrite append_cons]; discriminate. Qed.

Lemma replace_trailing_slash_cons (c : ascii) (s : string) :
  s ≠ "" → replace_trailing_slash (String c s) = String c (replace_trailing_slash s).
Proof. by destruct s. Qed.

Lemma replace_trailing_slash_app (q : string) :
  replace_trailing_slash (q +:+ "/") = q.
Proof.
  induction q as [|c q IH]; [done|].
  rewrite append_cons, replace_trailing_slash_cons by apply append_not_nil.
  by rewrite IH.
Qed.

Lemma trailing_slash_cases (p : string) :
  (∃ r, p = r +:+ "/") ∨ (∀ q, p ≠ q +:+ "/").
Proof.
  induction p as [|c p IH].
  - right. intros q Hq. by apply (append_not_nil q "/").
  - destruct IH as [[r ->]|Hno].
    + left. by exists (String c r).
    + destruct p as [|d p].
      * destruct (Ascii.eqb_spec c "/") as [->|Hc].
        -- left. by exists EmptyString.
        -- right. intros [|e q] Hq.
           ++ rewrite append_nil in Hq. by simplify_eq.
           ++ rewrite append_cons in Hq. simplify_eq.
              by apply (append_not_nil q "/").
      * right. intros [|e q] Hq.
        -- rewrite append_nil in Hq. by simplify_eq.
        -- rewrite append_cons in Hq. simplify_eq. by apply (Hno q).
Qed.

Lemma replace_trailing_slash_none (p : string) :
  (∀ q, p ≠ q +:+ "/") → replace_trailing_slash p = p.
Proof.
  induction p as [|c p IH]; [done|]. intros Hno.
  destruct p as [|d p].
  - simpl. destruct (Ascii.eqb_spec c "/") as [->|Hc]; [|done].
    by destruct (Hno EmptyString).
  - rewrite replace_trailing_slash_cons by done.
    rewrite IH; [done|]. intros q Hq. apply (Hno (String c q)).
    by rewrite append_cons, Hq.
Qed.

Lemma app_slash_assoc (q : string) : (q +:+ "/") +:+ "/" = q +:+ "//".
Proof.
  induction q as [|c q IH]; [done|]. by rewrite !append_cons, IH.
Qed.

End ProxyUrl.

(** With nothing usable in storage the proxy URL is the default, and
    getProxyUrl does not throw: when access to localStorage throws, when
    the stored text does not parse, and (the parser reading the text of
    the empty object as the empty object) when the item is missing or
    empty. *)
Theorem getProxyUrl_default {Num : Type} (R : Settings.Runtime Num) :
  (∃ e, Settings.storage R = inl e) ∨
  (∃ items t e,
     Settings.storage R = inr items ∧
     items !! Settings.STORAGE_KEY = Some t ∧ t ≠ "" ∧
     Settings.JSON_parse R t = inl e) ∨
  (∃ items,
     Settings.storage R = inr items ∧
     (items !! Settings.STORAGE_KEY = None ∨ items !! Settings.STORAGE_KEY = Some "") ∧
     Settings.JSON_parse R "{}" = inr (Settings.Object ∅)) →
  Settings.getProxyUrl R = inr "http://localhost:8082".
Proof.
  unfold Settings.getProxyUrl, Settings.loadSettings, Settings.getItem.
  intros [[e ->]|[(items & t & e & -> & -> & Ht & Hp)|(items & -> & Hi & Hp)]].
  - done.
  - destruct t; [done|]. simpl. by rewrite Hp.
  - destruct Hi as [-> | ->]; simpl; by rewrite Hp.
Qed.

Lemma getProxyUrl_default_witness :
  Settings.storage Settings.first_visit = inr ∅ ∧
  Settings.getProxyUrl Settings.first_visit = inr "http://localhost:8082".
Proof.
  split; [reflexivity|].
  apply getProxyUrl_default. right; right. exists ∅.
  split; [reflexivity|]. split; [by left|reflexivity].
Defined.

(** When the stored settings are an object whose proxyUrl is a
    non-empty string, getProxyUrl returns that string without its last
    character if that is a slash, and unchanged otherwise; so the result
    ends in a slash only when the configured URL ends in two. *)
Theorem getProxyUrl_configured {Num : Type} (R : Settings.Runtime Num)
    (o : gmap string (Settings.Value Num)) (p : string) :
  Settings.loadSettings R = Settings.Object o →
  o !! "proxyUrl" = Some (Settings.Str p) →
  p ≠ "" →
  ∃ url,
    Settings.getProxyUrl R = inr url ∧
    (∀ q, p = q +:+ "/" → url = q) ∧
    ((∀ q, p ≠ q +:+ "/") → url = p) ∧
    (∀ q, url = q +:+ "/" → p = q +:+ "//").
Proof.
  intros Hs Ho Hp. exists (Settings.replace_trailing_slash p).
  split.
  { unfold Settings.getProxyUrl. rewrite Hs. simpl. rewrite Ho. simpl.
    by destruct p. }
  split; [|split].
  - intros q ->. apply replace_trailing_slash_app.
  - apply replace_trailing_slash_none.
  - intros q Hq. destruct (trailing_slash_cases p) as [[r ->]|Hno].
    + rewrite replace_trailing_slash_app in Hq. subst r. apply app_slash_assoc.
    + rewrite (replace_trailing_slash_none _ Hno) in Hq. by destruct (Hno q).
Qed.

Lemma getProxyUrl_configured_witness :
  Settings.loadSettings Settings.configured
  = Settings.Object {[ "proxyUrl" := Settings.Str "https://proxy.runbookai.net/" ]} ∧
  Settings.getProxyUrl Settings.configured = inr "https://proxy.runbookai.net".
Proof.
  assert (Settings.loadSettings Settings.configured
          = Settings.Object {[ "proxyUrl" := Settings.Str "https://proxy.runbookai.net/" ]})
    as Hs by (vm_compute; reflexivity).
  split; [exact Hs|].
  destruct (getProxyUrl_configured Settings.configured _ "https://proxy.runbookai.net/" Hs)
    as (url & -> & Hcut & _); [reflexivity|discriminate|].
  f_equal. by apply Hcut.
Defined.

(** getProxyUrl throws in two situations only, although loadSettings
    never does: when the stored text parses to null (or the settings are
    undefined), and when proxyUrl is a truthy value that is not a string
    (a number, true, an array or an object). *)
Theorem getProxyUrl_throws_iff {Num : Type} (R : Settings.Runtime Num) :
  (∃ e, Settings.getProxyUrl R = inl e) ↔
  Settings.loadSettings R = Settings.Null ∨
  Settings.loadSettings R = Settings.Undefined ∨
  ∃ o v,
    Settings.loadSettings R = Settings.Object o ∧
    o !! "proxyUrl" = Some v ∧
    Settings.to_boolean R v = true ∧
    ∀ x, v ≠ Settings.Str x.
Proof.
  unfold Settings.getProxyUrl. split.
  - intros [e He].
    destruct (Settings.loadSettings R) as [| |b|x|s|l|o]; simpl in He;
      [by right; left|by left|done..|].
    do 2 right. destruct (o !! "proxyUrl") as [v|] eqn:Ho; [|done].
    simpl in He. exists o, v.
    destruct (Settings.to_boolean R v) eqn:Hb; [|done].
    repeat (split; [done|]). intros x ->. done.
  - intros [Hs|[Hs|(o & v & Hs & Ho & Hb & Hv)]]; rewrite Hs; simpl; [eauto..|].
    rewrite Ho. simpl. rewrite Hb.
    destruct v as [| |b|x|s|l|o']; try (by eauto).
    by destruct (Hv s).
Qed.

(* ================================================================== *)
(** * A body that cannot be read *)
(* ================================================================== *)

(** With [readBody] for the reading, this is the listener itself. *)
Lemma handler_reading_readBody (P : Platform) (req : IncomingMessage) :
  handler_reading P readBody req = handler P req.
Proof. reflexivity. Qed.

(** When the request is ready to be dispatched but reading its body
    fails, the listener throws the error of the stream: the read is
    outside both try blocks.  No response has been written, nothing has
    been sent upstream and nothing logged. *)
Theorem body_read_failure_rejects (P : Platform) (req : IncomingMessage)
    (u : URL) (e : Error) :
  dispatched P req u →
  handler_reading P (aborted e) req fresh = (Throw e, fresh).
Proof.
  intros (Hm & Ho & s & Hu & Hs & Hp & Hv).
  unfold handler_reading, url_param in *. fold (origin_of req).
  rewrite (bool_decide_eq_false_2 _ Hm), (bool_decide_eq_true_2 _ Ho).
  unfold mbind, M_bind, lift; simpl.
  destruct (URL_new P _ (Some _)) as [|q]; simplify_eq. rewrite Hu.
  destruct s as [|c s]; [done|]. simpl.
  unfold validate, try_catch, mbind, M_bind, lift. rewrite Hp.
  assert (negb (bool_decide (protocol u = "http:"))
          && negb (bool_decide (protocol u = "https:")) = false) as ->.
  { destruct Hv as [Hv|Hv]; rewrite (bool_decide_eq_true_2 _ Hv); simpl; [done|].
    apply andb_false_r. }
  done.
Qed.

Lemma body_read_failure_rejects_witness :
  dispatched Sample.platform Sample.post_me Sample.discord_url ∧
  handler_reading Sample.platform (aborted {| message := "aborted" |}) Sample.post_me fresh
  = (Throw {| message := "aborted" |}, fresh).
Proof.
  assert (dispatched Sample.platform Sample.post_me Sample.discord_url) as Hd.
  { dispatched_with Sample.discord_me. }
  split; [exact Hd|].
  exact (body_read_failure_rejects Sample.platform Sample.post_me Sample.discord_url
           {| message := "aborted" |} Hd).
Defined.
